(** * Idaho climate map: a shallow embedding of [src/main.py]

    The script is one function, [main], a straight pipeline of calls into
    geopandas, rasterio, numpy, matplotlib, Pillow and folium.  The
    embedding follows it line by line:

    - array values are IEEE doubles in which rounding is not modelled:
      a finite value is an exact rational; overflow is modelled, a sum,
      product or quotient whose magnitude reaches the overflow
      threshold of doubles being an infinity; and the three special
      values (both infinities and not-a-number) are kept, because they
      decide what the mask, the division and the colormap do;
    - library calls are modelled by what they compute on those values
      (defaults of [rasterio.mask.mask], linear [np.percentile],
      [np.clip], the lookup table of matplotlib's "jet");
    - files, the raster handle and exceptions are threaded through a
      small state-and-exception monad. *)

From Stdlib Require Import String ZArith QArith Qround Qminmax List Bool Lia.
From Stdlib Require Import Sorted Lqa.
Import ListNotations.

Local Open Scope string_scope.
Local Open Scope list_scope.
Local Open Scope Z_scope.

(** ** Floating-point values *)

Inductive float : Type :=
| Fin (q : Q)
| PInf
| NInf
| NaN.

Module Float.

(** The number [q], in lowest terms. *)
Definition fin (q : Q) : float := Fin (Qred q).

(** The overflow threshold of doubles: a result of this magnitude or
    more rounds to an infinity. *)
Definition huge : Q := inject_Z (2 ^ 1024 - 2 ^ 970).

(** The float an arithmetic result [q] is stored as. *)
Definition round (q : Q) : float :=
  if Qle_bool huge q then PInf
  else if Qle_bool q (- huge) then NInf
  else Fin (Qred q).

Definition of_Z (z : Z) : float := Fin (inject_Z z).

(** [np.isnan] *)
Definition isnan (a : float) : bool :=
  match a with NaN => true | _ => false end.

(** Python's [==] on floats: not-a-number equals nothing. *)
Definition eqb (a b : float) : bool :=
  match a, b with
  | Fin x, Fin y => Qeq_bool x y
  | PInf, PInf => true
  | NInf, NInf => true
  | _, _ => false
  end.

(** [<=]; false as soon as one side is not-a-number. *)
Definition leb (a b : float) : bool :=
  match a, b with
  | NaN, _ | _, NaN => false
  | NInf, _ => true
  | _, PInf => true
  | Fin x, Fin y => Qle_bool x y
  | _, _ => false
  end.

Definition neg (a : float) : float :=
  match a with
  | Fin x => fin (- x)
  | PInf => NInf
  | NInf => PInf
  | NaN => NaN
  end.

Definition add (a b : float) : float :=
  match a, b with
  | NaN, _ | _, NaN => NaN
  | Fin x, Fin y => round (x + y)
  | PInf, NInf | NInf, PInf => NaN
  | PInf, _ | _, PInf => PInf
  | NInf, _ | _, NInf => NInf
  end.

Definition sub (a b : float) : float := add a (neg b).

(** Sign of a rational: -1, 0 or 1. *)
Definition sgn (x : Q) : Z := Z.sgn (Qnum x).

Definition signed_inf (s : Z) : float :=
  if s =? 0 then NaN else if 0 <? s then PInf else NInf.

Definition mul (a b : float) : float :=
  match a, b with
  | NaN, _ | _, NaN => NaN
  | Fin x, Fin y => round (x * y)
  | Fin x, PInf | PInf, Fin x => signed_inf (sgn x)
  | Fin x, NInf | NInf, Fin x => signed_inf (- sgn x)
  | PInf, PInf | NInf, NInf => PInf
  | PInf, NInf | NInf, PInf => NInf
  end.

(** Division.  numpy does not raise on a zero divisor: [0/0] is
    not-a-number and [x/0] is an infinity, each with a warning only. *)
Definition div (a b : float) : float :=
  match a, b with
  | NaN, _ | _, NaN => NaN
  | Fin x, Fin y =>
      if Qeq_bool y 0 then signed_inf (sgn x) else round (x / y)
  | Fin _, PInf | Fin _, NInf => Fin 0
  | PInf, Fin y => if (sgn y <? 0) then NInf else PInf
  | NInf, Fin y => if (sgn y <? 0) then PInf else NInf
  | _, _ => NaN
  end.

(** [np.maximum] and [np.minimum]: not-a-number propagates. *)
Definition maximum (a b : float) : float :=
  match a, b with
  | NaN, _ | _, NaN => NaN
  | _, _ => if leb a b then b else a
  end.

Definition minimum (a b : float) : float :=
  match a, b with
  | NaN, _ | _, NaN => NaN
  | _, _ => if leb a b then a else b
  end.

(** [np.clip(a, lo, hi)] is [minimum(maximum(a, lo), hi)]. *)
Definition clip (a lo hi : float) : float :=
  minimum (maximum a lo) hi.

End Float.

(** ** Two-dimensional arrays *)

Definition array2 (A : Type) : Type := list (list A).

Definition map2d {A B : Type} (f : A -> B) (a : array2 A) : array2 B :=
  map (map f) a.

(** Cell [(r, c)] of an array, when it exists. *)
Definition cell {A : Type} (a : array2 A) (r c : nat) : option A :=
  match nth_error a r with
  | Some row => nth_error row c
  | None => None
  end.

(** Pairs up two arrays of the same shape, cell by cell. *)
Definition zip2d {A B : Type} (a : array2 A) (b : array2 B) : array2 (A * B) :=
  map (fun rr => combine (fst rr) (snd rr)) (combine a b).

(** Boolean-mask indexing [a[~m]]: the cells whose mask is false, in
    row-major order. *)
Definition select_unmasked {A : Type} (a : array2 A) (m : array2 bool) : list A :=
  map fst (filter (fun vm => negb (snd vm)) (concat (zip2d a m))).

(** ** Exceptions *)

(** The Python exceptions the script can die with.  The script catches
    none of them, so each one ends the run. *)
Inductive exn : Type :=
| DataSourceError          (* geopandas.read_file: file missing or unreadable *)
| RasterioIOError          (* rasterio.open: file missing or unreadable *)
| ValueError (msg : string) (* raised by to_crs and by rasterio.mask.mask *)
| WindowError              (* rasterio.windows: empty intersection *)
| IndexError               (* np.percentile over no value at all *)
| OSError (path : string). (* Image.save and Map.save *)

Inductive result (A : Type) : Type :=
| Ok (a : A)
| Raise (e : exn).

Arguments Ok {A} a.
Arguments Raise {A} e.

(** ** numpy: percentiles *)

Module Np.

Fixpoint insert (x : float) (l : list float) : list float :=
  match l with
  | [] => [x]
  | y :: l' => if Float.leb x y then x :: l else y :: insert x l'
  end.

Definition sort (l : list float) : list float := fold_right insert [] l.

(** [_lerp(a, b, t)] of numpy's quantile code. *)
Definition lerp (a b : float) (t : Q) : float :=
  let diff_b_a := Float.sub b a in
  if Qle_bool (1 # 2) t
  then Float.sub b (Float.mul diff_b_a (Float.fin (1 - t)%Q))
  else Float.add a (Float.mul diff_b_a (Float.fin t)).

(** [np.percentile(a, q)] for one [q], method "linear", on a flat
    array.  Over no value at all numpy (1.22 and later) raises
    IndexError. *)
Definition percentile1 (a : list float) (q : Q) : result float :=
  let n := Z.of_nat (length a) in
  if n =? 0 then Raise IndexError
  else if existsb Float.isnan a then Ok NaN
  else
    let s := sort a in
    let virtual_index := Qred ((q / 100) * inject_Z (n - 1))%Q in
    let above := Qle_bool (inject_Z (n - 1)) virtual_index in
    let below := negb (Qle_bool 0 virtual_index) in
    let previous_index :=
      if below then 0 else if above then -1 else Qfloor virtual_index in
    let next_index :=
      if below then 0 else if above then -1 else Qfloor virtual_index + 1 in
    (* a negative index counts from the end *)
    let at_index i := nth (Z.to_nat (if i <? 0 then n + i else i)) s NaN in
    let gamma := (virtual_index - inject_Z previous_index)%Q in
    Ok (lerp (at_index previous_index) (at_index next_index) gamma).

(** [np.percentile(a, [q1, q2])], unpacked into two names. *)
Definition percentile2 (a : list float) (q1 q2 : Q) : result (float * float) :=
  match percentile1 a q1, percentile1 a q2 with
  | Ok v1, Ok v2 => Ok (v1, v2)
  | Raise e, _ => Raise e
  | _, Raise e => Raise e
  end.

End Np.

(** ** matplotlib: the "jet" colormap *)

Definition rgba : Type := (Q * Q * Q * Q)%type.

Module Jet.

(** Segment data of "jet": rows [(x, y0, y1)] per channel. *)
Definition red : list (Q * Q * Q) :=
  [ (0, 0, 0); (35 # 100, 0, 0); (66 # 100, 1, 1); (89 # 100, 1, 1);
    (1, 1 # 2, 1 # 2) ]%Q.

Definition green : list (Q * Q * Q) :=
  [ (0, 0, 0); (125 # 1000, 0, 0); (375 # 1000, 1, 1); (64 # 100, 1, 1);
    (91 # 100, 0, 0); (1, 0, 0) ]%Q.

Definition blue : list (Q * Q * Q) :=
  [ (0, 1 # 2, 1 # 2); (11 # 100, 1, 1); (34 # 100, 1, 1); (65 # 100, 0, 0);
    (1, 0, 0) ]%Q.

(** Number of entries of the lookup table. *)
Definition N : Z := 256.

(** Linear interpolation of the segment data at [x]: the first row
    whose abscissa is at least [x] closes the segment. *)
Fixpoint interp (x : Q) (prev : Q * Q * Q) (rest : list (Q * Q * Q)) : Q :=
  match rest with
  | [] => snd prev
  | cur :: rest' =>
      let '(x0, _, y1_prev) := prev in
      let '(x1, y0_cur, _) := cur in
      if Qle_bool x x1
      then (((x - x0) / (x1 - x0)) * (y0_cur - y1_prev) + y1_prev)%Q
      else interp x cur rest'
  end.

(** Entry [i] of one channel of the table
    ([_create_lookup_table(N, data)]), as an exact rational: the
    double matplotlib stores may lie a rounding below it. *)
Definition lut_channel (data : list (Q * Q * Q)) (i : Z) : Q :=
  match data with
  | [] => 0%Q
  | first :: rest =>
      let v :=
        if i =? 0 then snd first
        else if i =? N - 1 then snd (fst (last data first))
        else interp (inject_Z i / inject_Z (N - 1))%Q first rest in
      Qred (Qmin (Qmax v 0) 1)
  end.

(** Entry [i] of the table; alpha is 1 throughout. *)
Definition lut (i : Z) : rgba :=
  (lut_channel red i, lut_channel green i, lut_channel blue i, 1%Q).

(** The colour of values that are not numbers: nothing is painted. *)
Definition rgba_bad : rgba := (0, 0, 0, 0)%Q.

(** [cmap(x)] for one float of the array ([Colormap.__call__]). *)
Definition call (x : float) : rgba :=
  match Float.mul x (Float.of_Z N) with
  | NaN => rgba_bad
  | NInf => lut 0
  | PInf => lut (N - 1)
  | Fin xa =>
      if Qeq_bool xa (inject_Z N) then lut (N - 1)
      else if negb (Qle_bool 0 xa) then lut 0          (* under *)
      else if Qle_bool (inject_Z N) xa then lut (N - 1) (* over *)
      else lut (Z.quot (Qnum xa) (Zpos (Qden xa)))
  end.

End Jet.

(** [astype(np.uint8)] of a float channel: truncation, then the low
    eight bits. *)
Definition astype_uint8 (x : Q) : Z :=
  (Z.quot (Qnum x) (Zpos (Qden x))) mod 256.

Definition pixel : Type := (Z * Z * Z * Z)%type.

Definition scale_pixel (p : rgba) : pixel :=
  let '(r, g, b, a) := p in
  (astype_uint8 (r * 255)%Q, astype_uint8 (g * 255)%Q,
   astype_uint8 (b * 255)%Q, astype_uint8 (a * 255)%Q).

(** ** Geospatial data *)

(** The CRS a frame or a dataset carries: [None] when it has none. *)
Definition CRS : Type := option string.

(** [a == b] on two CRS values. *)
Definition crs_eqb (a b : CRS) : bool :=
  match a, b with
  | Some x, Some y => String.eqb x y
  | None, None => true
  | _, _ => false
  end.

(** An affine transform [(a, b, c, d, e, f)]:
    [x = a*col + b*row + c], [y = d*col + e*row + f]. *)
Record Affine : Type := mkAffine {
  af_a : Q; af_b : Q; af_c : Q;
  af_d : Q; af_e : Q; af_f : Q
}.

(** A boundary geometry as rasterio sees it against the raster's grid
    once its coordinates are read in the raster's CRS: its bounding box
    [(left, bottom, right, top)] in pixel coordinates
    ([rasterio.features.bounds] under the inverse raster transform) and
    the pixels [(row, col)] whose centre it contains (what rasterizing it
    burns, [all_touched] being off). *)
Record Geometry : Type := mkGeometry {
  g_bounds : Q * Q * Q * Q;
  g_inside : Z -> Z -> bool
}.

Record GeoDataFrame : Type := mkGeoDataFrame {
  gdf_crs : CRS;
  gdf_geometry : list Geometry
}.

(** What a raster file holds: georeferencing, the declared no-data
    value if any, and the samples of band 1 by [(row, col)]. *)
Record Raster : Type := mkRaster {
  r_crs : CRS;
  r_nodata : option float;
  r_transform : Affine;
  r_width : Z;
  r_height : Z;
  r_band1 : Z -> Z -> float
}.

Record Window : Type := mkWindow {
  col_off : Z; row_off : Z; width : Z; height : Z
}.

(** ** The outputs *)

Definition Image : Type := array2 pixel.

Inductive Element : Type :=
| TileLayer (tiles name : string)
| Geocoder (position : string) (zoom : Z)
| ImageOverlay (image : Image) (bounds : (Q * Q) * (Q * Q))
               (opacity : Q) (name : string)
| Legend (bins : list (string * string))
| LayerControl.

(** The map document, by what it is made of.  The identifiers folium
    gives its elements, fresh at every run, are no part of it. *)
Record Map : Type := mkMap {
  m_location : Q * Q;
  m_zoom_start : Z;
  m_tiles : option string;
  m_children : list Element
}.

(** ** The world the script runs in *)

Inductive file (A : Type) : Type :=
| Missing
| Unreadable
| Content (a : A).

Arguments Missing {A}.
Arguments Unreadable {A}.
Arguments Content {A} a.

(** What the run does not change: the two input files, the coordinate
    transformation behind [to_crs], and whether the writes at the two
    output paths go through. *)
Record world : Type := mkWorld {
  vector_file : file GeoDataFrame;  (* Idaho_Counties/Idaho_Counties.shp *)
  raster_file : file Raster;        (* Contiguous US/2023ConusNAD83_Clip.tif *)
  reproject : CRS -> CRS -> Geometry -> Geometry;
  png_writable : bool;
  html_writable : bool
}.

(** What the run looks at and changes, in order. *)
Inductive event : Type :=
| Print (msg : string)
| Opened (path : string)
| Closed (path : string)
| GetAttr (name : string)     (* an attribute of the dataset object [src] *)
| ReadBands
| Wrote (path : string).

Record state : Type := mkState {
  handle_open : bool;                  (* the file handle behind [src] *)
  png_file : option Image;             (* idaho_colormap_transparent.png *)
  html_file : option Map;              (* index.html *)
  trace : list event
}.

(** ** A state-and-exception monad *)

Definition M (A : Type) : Type := world -> state -> result A * state.

Definition ret {A : Type} (a : A) : M A := fun _ s => (Ok a, s).

Definition bind {A B : Type} (m : M A) (k : A -> M B) : M B :=
  fun w s =>
    match m w s with
    | (Ok a, s') => k a w s'
    | (Raise e, s') => (Raise e, s')
    end.

Definition raise {A : Type} (e : exn) : M A := fun _ s => (Raise e, s).

Definition lift {A : Type} (r : result A) : M A := fun _ s => (r, s).

Definition ask : M world := fun w s => (Ok w, s).

Definition get : M state := fun _ s => (Ok s, s).

Definition modify (f : state -> state) : M unit := fun _ s => (Ok tt, f s).

Notation "x <- m ;; k" := (bind m (fun x => k))
  (at level 61, m at next level, right associativity).
Notation "' p <- m ;; k" := (bind m (fun x => let p := x in k))
  (at level 61, p pattern, m at next level, right associativity).
Notation "m ;;; k" := (bind m (fun _ => k))
  (at level 61, right associativity).

Definition emit (ev : event) : M unit :=
  modify (fun s => mkState (handle_open s) (png_file s)
                           (html_file s) (trace s ++ [ev])).

Definition print (msg : string) : M unit := emit (Print msg).

(** ** geopandas *)

(** [gpd.read_file(path)]: raises on a missing or unreadable file and
    returns the frame of any readable one, whatever it holds. *)
Definition read_file : M GeoDataFrame :=
  w <- ask ;;
  match vector_file w with
  | Content gdf => ret gdf
  | Missing | Unreadable => raise DataSourceError
  end.

(** [gdf.to_crs(crs)]: raises on a frame that has no CRS, and when
    it is given none to go to. *)
Definition to_crs (gdf : GeoDataFrame) (crs : CRS) : M GeoDataFrame :=
  match gdf_crs gdf, crs with
  | None, _ =>
      raise (ValueError "Cannot transform naive geometries.  Please set a crs on the object first.")
  | Some _, None => raise (ValueError "Must pass either crs or epsg.")
  | Some _, Some _ =>
      w <- ask ;;
      ret (mkGeoDataFrame crs
             (map (reproject w (gdf_crs gdf) crs) (gdf_geometry gdf)))
  end.

(** ** rasterio *)

Definition tabulate {A : Type} (h w : Z) (f : Z -> Z -> A) : array2 A :=
  map (fun i => map (fun j => f (Z.of_nat i) (Z.of_nat j)) (seq 0 (Z.to_nat w)))
      (seq 0 (Z.to_nat h)).

Definition Qminimum (x : Q) (l : list Q) : Q := fold_left Qmin l x.
Definition Qmaximum (x : Q) (l : list Q) : Q := fold_left Qmax l x.

Module Rasterio.

(** [rasterio.open(path)], entering the [with] block. *)
Definition open (path : string) : M Raster :=
  w <- ask ;;
  match raster_file w with
  | Content r =>
      modify (fun s => mkState true (png_file s) (html_file s) (trace s)) ;;;
      emit (Opened path) ;;;
      ret r
  | Missing | Unreadable => raise RasterioIOError
  end.

(** Leaving the [with] block closes the handle. *)
Definition close (path : string) : M unit :=
  modify (fun s => mkState false (png_file s) (html_file s)
                           (trace s)) ;;;
  emit (Closed path).

(** [with rasterio.open(path) as src: body]: the handle is closed when
    the body ends, whether it returned or raised. *)
Definition with_open {A : Type} (path : string) (body : Raster -> M A) : M A :=
  fun w s =>
    match open path w s with
    | (Raise e, s1) => (Raise e, s1)
    | (Ok src, s1) =>
        let '(r, s2) := body src w s1 in
        let '(_, s3) := close path w s2 in
        (r, s3)
    end.

(** The property [src.crs]. *)
Definition crs (src : Raster) : M CRS :=
  emit (GetAttr "crs") ;;;
  ret (r_crs src).

(** The property [src.nodata].  The dataset object holds the value
    from the moment the file is opened, so a read returns it whether
    or not the file is still open. *)
Definition nodata (src : Raster) : M (option float) :=
  emit (GetAttr "nodata") ;;;
  ret (r_nodata src).

(** [Window.intersection] *)
Definition intersection (w1 w2 : Window) : result Window :=
  let col := Z.max (col_off w1) (col_off w2) in
  let row := Z.max (row_off w1) (row_off w2) in
  let wd := Z.min (col_off w1 + width w1) (col_off w2 + width w2) - col in
  let ht := Z.min (row_off w1 + height w1) (row_off w2 + height w2) - row in
  if (0 <? wd) && (0 <? ht) then Ok (mkWindow col row wd ht)
  else Raise WindowError.

(** [rasterio.features.geometry_window(dataset, shapes)].  With no
    shape at all it is Python's [min] of an empty list that raises;
    the text of that [ValueError] is the one of Python up to 3.11. *)
Definition geometry_window (src : Raster) (shapes : list Geometry)
  : result Window :=
  let cols :=
    flat_map (fun g => let '(lft, bottom, rgt, top) := g_bounds g in
                       [lft; rgt; rgt; lft]) shapes in
  let rows :=
    flat_map (fun g => let '(lft, bottom, rgt, top) := g_bounds g in
                       [top; top; bottom; bottom]) shapes in
  match cols, rows with
  | c0 :: cols', r0 :: rows' =>
      let row_start := Qfloor (Qminimum r0 rows') in
      let row_stop := Qceiling (Qmaximum r0 rows') in
      let col_start := Qfloor (Qminimum c0 cols') in
      let col_stop := Qceiling (Qmaximum c0 cols') in
      let window :=
        mkWindow col_start row_start
                 (Z.max (col_stop - col_start) 0)
                 (Z.max (row_stop - row_start) 0) in
      intersection window (mkWindow 0 0 (r_width src) (r_height src))
  | _, _ => Raise (ValueError "min() arg is an empty sequence")
  end.

(** [dataset.window_transform(window)] *)
Definition window_transform (src : Raster) (win : Window) : Affine :=
  let t := r_transform src in
  let x := inject_Z (col_off win) in
  let y := inject_Z (row_off win) in
  mkAffine (af_a t) (af_b t) (Qred (af_a t * x + af_b t * y + af_c t))
           (af_d t) (af_e t) (Qred (af_d t * x + af_e t * y + af_f t)).

(** [raster_geometry_mask(dataset, shapes, crop=True)]: the mask is
    true on the pixels of the window that no shape contains. *)
Definition raster_geometry_mask (src : Raster) (shapes : list Geometry)
  : result (array2 bool * Affine * Window) :=
  match geometry_window src shapes with
  | Raise WindowError => Raise (ValueError "Input shapes do not overlap raster.")
  | Raise e => Raise e
  | Ok window =>
      let shape_mask :=
        tabulate (height window) (width window)
          (fun i j =>
             negb (existsb (fun g => g_inside g (row_off window + i)
                                                (col_off window + j)) shapes)) in
      Ok (shape_mask, window_transform src window, window)
  end.

(** [dataset.read(window=window, masked=True)] for band 1: samples
    with the mask of the dataset, which is true where a sample equals
    the declared no-data value. *)
Definition read_masked (src : Raster) (window : Window)
  : M (array2 (float * bool)) :=
  emit ReadBands ;;;
  ret (tabulate (height window) (width window)
         (fun i j =>
            let v := r_band1 src (row_off window + i) (col_off window + j) in
            (v, match r_nodata src with
                | Some n => Float.eqb v n || (Float.isnan n && Float.isnan v)
                | None => false
                end))).

(** [rasterio.mask.mask(dataset, shapes, crop=True)], every other
    argument at its default: [nodata=None], [filled=True].  The fill
    value is [dataset.nodata] when that is not [None], read a second
    time to be used, and 0 otherwise.  The result has one layer per
    band; the dataset has one band. *)
Definition mask (src : Raster) (shapes : list Geometry)
  : M (list (array2 float) * Affine) :=
  declared <- nodata src ;;
  nodata <- (match declared with
             | Some _ =>
                 again <- nodata src ;;
                 ret (match again with Some n => n | None => Fin 0 end)
             | None => ret (Fin 0)
             end) ;;
  '(shape_mask, transform, window) <- lift (raster_geometry_mask src shapes) ;;
  out_image <- read_masked src window ;;
  let out_image :=
    map2d (fun c : float * bool * bool =>
             let '(v, m, sm) := c in if m || sm then nodata else v)
          (zip2d out_image shape_mask) in
  ret ([out_image], transform).

(** [rasterio.transform.array_bounds(height, width, transform)]:
    [(west, south, east, north)]. *)
Definition array_bounds (height width : Z) (t : Affine) : Q * Q * Q * Q :=
  let h := inject_Z height in
  let w := inject_Z width in
  if Qeq_bool (af_b t) 0 && Qeq_bool (af_d t) 0
  then (af_c t, Qred (af_f t + af_e t * h), Qred (af_c t + af_a t * w), af_f t)
  else
    let xs := [Qred (af_b t * h + af_c t); Qred (af_a t * w + af_b t * h + af_c t);
               Qred (af_a t * w + af_c t)] in
    let ys := [Qred (af_e t * h + af_f t); Qred (af_d t * w + af_e t * h + af_f t);
               Qred (af_d t * w + af_f t)] in
    (Qminimum (af_c t) xs, Qminimum (af_f t) ys,
     Qmaximum (af_c t) xs, Qmaximum (af_f t) ys).

End Rasterio.

(** ** The colorizer: lines 39 to 46 of [main] *)

(** Line 39: [(data == nodata_value) | np.isnan(data)]. *)
Definition nodata_mask (data : array2 float) (nodata_value : float) : array2 bool :=
  map2d (fun v => Float.eqb v nodata_value || Float.isnan v) data.

(** Line 40: [np.percentile(data[~nodata_mask], [2, 98])]. *)
Definition percentiles (data : array2 float) (nodata_value : float)
  : result (float * float) :=
  Np.percentile2 (select_unmasked data (nodata_mask data nodata_value)) 2 98.

(** Lines 41 and 42, one array pass each:
    [data = np.clip(data, vmin, vmax)] and
    [data = (data - vmin) / (vmax - vmin)]. *)
Definition rescale (data : array2 float) (vmin vmax : float) : array2 float :=
  let data := map2d (fun v => Float.clip v vmin vmax) data in
  map2d (fun v => Float.div (Float.sub v vmin) (Float.sub vmax vmin)) data.

(** Lines 39 to 42: the array [data] as it stands after line 42. *)
Definition normalized (data : array2 float) (nodata_value : float)
  : result (array2 float) :=
  match percentiles data nodata_value with
  | Ok (vmin, vmax) => Ok (rescale data vmin vmax)
  | Raise e => Raise e
  end.

(** Lines 43 to 46: colours from the colormap, the masked pixels
    overwritten with [[0, 0, 0, 0]], then bytes. *)
Definition render (mask : array2 bool) (data : array2 float) : Image :=
  let rgba_img := map2d Jet.call data in
  let rgba_img :=
    map2d (fun mp : bool * rgba => if fst mp then (0, 0, 0, 0)%Q else snd mp)
          (zip2d mask rgba_img) in
  map2d scale_pixel rgba_img.

Definition colorize (data : array2 float) (nodata_value : float) : result Image :=
  let mask := nodata_mask data nodata_value in
  match normalized data nodata_value with
  | Ok data => Ok (render mask data)
  | Raise e => Raise e
  end.

(** ** Pillow and folium *)

Definition tif_path : string := "Contiguous US/2023ConusNAD83_Clip.tif".
Definition idaho_shp_path : string := "Idaho_Counties/Idaho_Counties.shp".
Definition image_path : string := "idaho_colormap_transparent.png".
Definition html_path : string := "index.html".

(** [Image.fromarray(rgba_img).save(image_path, format="PNG")].
    [png_writable] says whether the write goes through.  The failure
    modelled is the one at opening the path for writing, which leaves
    the file as it was; a write that fails later, the file already
    truncated, is not modelled. *)
Definition save_png (img : Image) : M unit :=
  w <- ask ;;
  if png_writable w
  then
    modify (fun s => mkState (handle_open s) (Some img)
                             (html_file s) (trace s)) ;;;
    emit (Wrote image_path)
  else raise (OSError image_path).

(** [ImageOverlay(image=image_path, ...)]: folium reads the file at the
    path and embeds its bytes. *)
Definition image_overlay (bounds : (Q * Q) * (Q * Q)) : M Element :=
  s <- get ;;
  match png_file s with
  | Some img => ret (ImageOverlay img bounds (1 # 2) "Idaho Climate Overlay")
  | None => raise (OSError image_path)
  end.

Definition legend : Element :=
  Legend [ ("rgba(0, 0, 255, 0.5)", "-20 and below");
           ("rgba(0, 255, 200, 0.5)", "-20 to -10");
           ("rgba(255, 230, 0, 0.5)", "-10 to -5");
           ("rgba(255, 100, 0, 0.5)", "-5 to 5");
           ("rgba(220, 50, 50, 0.7)", "5 to 10") ].

(** [m.save("index.html")].  [html_writable] says whether the write
    goes through; as for the PNG, the failure modelled is the one at
    opening the path. *)
Definition save_html (m : Map) : M unit :=
  w <- ask ;;
  if html_writable w
  then
    modify (fun s => mkState (handle_open s) (png_file s)
                             (Some m) (trace s)) ;;;
    emit (Wrote html_path)
  else raise (OSError html_path).

Definition add_to (e : Element) (m : Map) : Map :=
  mkMap (m_location m) (m_zoom_start m) (m_tiles m) (m_children m ++ [e]).

(** ** [main] *)

(** Lines 22 to 37, the body of the [with] block. *)
Definition clip (idaho_gdf : GeoDataFrame) (src : Raster)
  : M (array2 float * ((Q * Q) * (Q * Q))) :=
  raster_crs <- Rasterio.crs src ;;
  print "Raster CRS:" ;;;
  idaho_gdf <-
    (if crs_eqb (gdf_crs idaho_gdf) raster_crs
     then ret idaho_gdf
     else print "Reprojecting Idaho shapefile..." ;;;
          to_crs idaho_gdf raster_crs) ;;
  let idaho_shapes := gdf_geometry idaho_gdf in
  '(idaho_clipped, idaho_transform) <- Rasterio.mask src idaho_shapes ;;
  data <- lift (match idaho_clipped with
                | band :: _ => Ok band
                | [] => Raise IndexError
                end) ;;
  let '(lft, bottom, rgt, top) :=
    Rasterio.array_bounds (Z.of_nat (length data))
                          (Z.of_nat (length (hd [] data)))
                          idaho_transform in
  let bounds := ((bottom, lft), (top, rgt)) in
  print "Bounds for Idaho:" ;;;
  ret (data, bounds).

(** Line 38, which runs after the [with] block has been left:
    [src.nodata if src.nodata is not None else -32000]. *)
Definition nodata_value_of (src : Raster) : M float :=
  test <- Rasterio.nodata src ;;
  match test with
  | Some _ =>
      v <- Rasterio.nodata src ;;
      ret (match v with Some n => n | None => Float.of_Z (-32000) end)
  | None => ret (Float.of_Z (-32000))
  end.

(** Lines 49 to 83. *)
Definition assemble (bounds : (Q * Q) * (Q * Q)) : M unit :=
  let m := mkMap (440682 # 10000, - (114742 # 1000))%Q 6 None [] in
  let m := add_to (TileLayer "OpenStreetMap" "OpenStreetMap") m in
  let m := add_to (TileLayer "Esri.WorldStreetMap" "Esri World Street Map") m in
  let m := add_to (Geocoder "topleft" 8) m in
  overlay <- image_overlay bounds ;;
  let m := add_to overlay m in
  let m := add_to legend m in
  let m := add_to LayerControl m in
  save_html m.

Definition main : M unit :=
  idaho_gdf <- read_file ;;
  '(src, data, bounds) <-
    Rasterio.with_open tif_path
      (fun src => '(data, bounds) <- clip idaho_gdf src ;; ret (src, data, bounds)) ;;
  nodata_value <- nodata_value_of src ;;
  rgba_img <- lift (colorize data nodata_value) ;;
  save_png rgba_img ;;;
  assemble bounds ;;;
  print "Saved Idaho overlay map.".

(** The state a run starts from: no handle, and whatever the two output
    paths hold from earlier runs. *)
Definition initial (png : option Image) (html : option Map) : state :=
  mkState false png html [].

(** ** Names for parts of a run *)

(** Lines 21 to 37 of [main]: everything up to the end of the [with]
    block. *)
Definition load_and_clip : M (Raster * array2 float * ((Q * Q) * (Q * Q))) :=
  idaho_gdf <- read_file ;;
  Rasterio.with_open tif_path
    (fun src => '(data, bounds) <- clip idaho_gdf src ;; ret (src, data, bounds)).

(** Lines 38 to 84 of [main]. *)
Definition colorize_and_publish (src : Raster) (data : array2 float)
           (bounds : (Q * Q) * (Q * Q)) : M unit :=
  nodata_value <- nodata_value_of src ;;
  rgba_img <- lift (colorize data nodata_value) ;;
  save_png rgba_img ;;;
  assemble bounds ;;;
  print "Saved Idaho overlay map.".

(** Lines 25 to 28: the shapes handed to [mask]. *)
Definition shapes_for (w : world) (gdf : GeoDataFrame) (src : Raster)
  : list Geometry :=
  if crs_eqb (gdf_crs gdf) (r_crs src) then gdf_geometry gdf
  else map (reproject w (gdf_crs gdf) (r_crs src)) (gdf_geometry gdf).

(** The frame can be handed to [mask] as lines 25 to 28 have it: its CRS
    is the raster's, or both carry one, so that [to_crs] does not
    raise. *)
Definition crs_compatible (gdf : GeoDataFrame) (src : Raster) : Prop :=
  gdf_crs gdf = r_crs src \/ (gdf_crs gdf <> None /\ r_crs src <> None).

(** The abscissas (columns) and the ordinates (rows) of the bounding
    box of a shape, in the pixel coordinates of the raster. *)
Definition xs_of (g : Geometry) : list Q :=
  let '(lft, bottom, rgt, top) := g_bounds g in [lft; rgt].

Definition ys_of (g : Geometry) : list Q :=
  let '(lft, bottom, rgt, top) := g_bounds g in [top; bottom].

(** In the pixel coordinates of the raster (columns for abscissas,
    rows for ordinates, which is how [mask] measures the shapes), the
    joint bounding box of the shapes lies wholly on one side of the
    grid: every abscissa at or left of column 0, or at or right of the
    end of the last column, or the same for the ordinates and the
    rows.  On a rotated raster this is not the same as the two extents
    being disjoint in the coordinates of the CRS. *)
Definition extent_misses_raster (src : Raster) (shapes : list Geometry) : Prop :=
  (forall g x, In g shapes -> In x (xs_of g) -> (x <= 0)%Q) \/
  (forall g x, In g shapes -> In x (xs_of g) -> (inject_Z (r_width src) <= x)%Q) \/
  (forall g y, In g shapes -> In y (ys_of g) -> (y <= 0)%Q) \/
  (forall g y, In g shapes -> In y (ys_of g) -> (inject_Z (r_height src) <= y)%Q).

(** One polygon alone misses the raster: its own bounding box does. *)
Definition polygon_misses_raster (src : Raster) (g : Geometry) : Prop :=
  extent_misses_raster src [g].

(** A float within [[0, 1]]. *)
Definition in_unit_interval (x : float) : bool :=
  Float.leb (Fin 0) x && Float.leb x (Fin 1).

(** The alpha channel of a pixel. *)
Definition alpha (p : pixel) : Z := snd p.

(** A computation is quiet when it writes neither output file: both
    files are as before, and the trace gains no [Wrote] event. *)
Definition quiet {A : Type} (m : M A) : Prop :=
  forall w s,
    png_file (snd (m w s)) = png_file s /\
    html_file (snd (m w s)) = html_file s /\
    (forall p, In (Wrote p) (trace (snd (m w s))) -> In (Wrote p) (trace s)).

(** The clipped grid a run reaches line 38 with, if it gets there. *)
Definition clipped_grid (w : world) (s : state) : option (array2 float) :=
  match fst (load_and_clip w s) with
  | Ok (_, data, _) => Some data
  | Raise _ => None
  end.

(** The value line 38 gives [nodata_value], if the run gets there. *)
Definition sentinel (w : world) (s : state) : option float :=
  match load_and_clip w s with
  | (Ok (src, _, _), s1) =>
      match fst (nodata_value_of src w s1) with
      | Ok v => Some v
      | Raise _ => None
      end
  | (Raise _, _) => None
  end.

(** The sample [mask] leaves at position [(i, j)] of the window: the
    sample of the raster there when some shape contains the pixel and
    the sample is not the declared no-data value, and the fill value
    otherwise (the declared no-data value, or 0 when none is declared). *)
Definition clipped_cell (src : Raster) (shapes : list Geometry) (win : Window)
           (i j : Z) : float :=
  let v := r_band1 src (row_off win + i) (col_off win + j) in
  let declared_nodata :=
    match r_nodata src with
    | Some n => Float.eqb v n || (Float.isnan n && Float.isnan v)
    | None => false
    end in
  let outside :=
    negb (existsb (fun g => g_inside g (row_off win + i) (col_off win + j))
                  shapes) in
  if declared_nodata || outside
  then match r_nodata src with Some n => n | None => Fin 0 end
  else v.

(** The grid [mask] returns for band 1 over the window [win]. *)
Definition clipped (src : Raster) (shapes : list Geometry) (win : Window)
  : array2 float :=
  tabulate (height win) (width win) (clipped_cell src shapes win).

(** The value line 38 computes from the raster. *)
Definition nodata_value_for (src : Raster) : float :=
  match r_nodata src with
  | Some n => n
  | None => Float.of_Z (-32000)
  end.

(** Line 36: [[[bottom, left], [top, right]]] from the four numbers of
    [array_bounds]. *)
Definition overlay_bounds (b : Q * Q * Q * Q) : (Q * Q) * (Q * Q) :=
  let '(lft, bottom, rgt, top) := b in ((bottom, lft), (top, rgt)).

(** Two corner pairs hold equal rationals. *)
Definition bounds_eq (b1 b2 : (Q * Q) * (Q * Q)) : Prop :=
  (fst (fst b1) == fst (fst b2))%Q /\ (snd (fst b1) == snd (fst b2))%Q /\
  (fst (snd b1) == fst (snd b2))%Q /\ (snd (snd b1) == snd (snd b2))%Q.

(** Float order on numbers, as a proposition. *)
Definition fle (x y : float) : Prop := Float.leb x y = true.




(** What lines 29 to 37 return for the shapes handed to [mask]: the
    grid and its bounds when the window of the shapes meets the
    raster, and the exception of [mask] otherwise. *)
Definition clip_outcome (w : world) (gdf : GeoDataFrame) (src : Raster)
  : result (array2 float * ((Q * Q) * (Q * Q))) :=
  match Rasterio.geometry_window src (shapes_for w gdf src) with
  | Ok win =>
      let data := clipped src (shapes_for w gdf src) win in
      Ok (data,
          overlay_bounds
            (Rasterio.array_bounds (Z.of_nat (length data))
                                   (Z.of_nat (length (hd [] data)))
                                   (Rasterio.window_transform src win)))
  | Raise WindowError => Raise (ValueError "Input shapes do not overlap raster.")
  | Raise e => Raise e
  end.

(** The bounds a run reaches line 38 with, if it gets there. *)
Definition clipped_bounds (w : world) (s : state) : option ((Q * Q) * (Q * Q)) :=
  match fst (load_and_clip w s) with
  | Ok (_, _, bounds) => Some bounds
  | Raise _ => None
  end.

(** The image overlay among the children of a map document. *)
Definition overlay_of (m : Map) : option (Image * ((Q * Q) * (Q * Q)) * Q) :=
  match nth_error (m_children m) 3 with
  | Some (ImageOverlay img bounds opacity _) => Some (img, bounds, opacity)
  | _ => None
  end.

(** ** Sample inputs *)

Module Sample.

Definition nad83 : CRS := Some "EPSG:4269".

(** Pixel [(row, col)] has its corner at [(col, -row)]. *)
Definition north_up : Affine := mkAffine 1 0 0 0 (-1) 0.

(** A rectangle of whole pixels: columns from [c0] up to [c1], rows
    from [r0] up to [r1], the upper ends excluded. *)
Definition box (c0 r0 c1 r1 : Z) : Geometry :=
  mkGeometry (inject_Z c0, inject_Z r1, inject_Z c1, inject_Z r0)
             (fun row col =>
                (r0 <=? row) && (row <? r1) && (c0 <=? col) && (col <? c1)).

(** The same rectangle with the pixel [(row0, col0)] cut out of it. *)
Definition box_without (c0 r0 c1 r1 : Z) (row0 col0 : Z) : Geometry :=
  mkGeometry (g_bounds (box c0 r0 c1 r1))
             (fun row col =>
                g_inside (box c0 r0 c1 r1) row col
                && negb ((row =? row0) && (col =? col0))).

Definition samples (rows : list (list Z)) (row col : Z) : float :=
  nth (Z.to_nat col) (map Float.of_Z (nth (Z.to_nat row) rows [])) NaN.

Definition raster (nodata : option Z) (w h : Z) (rows : list (list Z)) : Raster :=
  mkRaster nad83 (option_map Float.of_Z nodata) north_up w h (samples rows).

Definition world_of (shapes : list Geometry) (r : Raster) (png html : bool)
  : world :=
  mkWorld (Content (mkGeoDataFrame nad83 shapes)) (Content r)
          (fun _ _ g => g) png html.

(** The scenario of the specification: nine valid values, no-data
    declared as -999, one square covering the whole grid. *)
Definition nine : Raster :=
  raster (Some (-999)) 3 3 [[-25; -15; -15]; [-15; 0; 0]; [10; 10; 12]].

Definition scenario : world := world_of [box 0 0 3 3] nine true true.

(** The same inputs when the image path cannot be written. *)
Definition scenario_png_readonly : world :=
  world_of [box 0 0 3 3] nine false true.

(** Every valid value the same. *)
Definition flat_grid : array2 float :=
  [[Float.of_Z 5; Float.of_Z 5]; [Float.of_Z 5; Float.of_Z 5]].

Definition flat : world :=
  world_of [box 0 0 2 2] (raster (Some (-999)) 2 2 [[5; 5]; [5; 5]]) true true.

(** No no-data value declared, and one pixel of the window outside
    the boundary. *)
Definition undeclared : world :=
  world_of [box_without 0 0 2 2 1 1]
           (raster None 2 2 [[1; 2]; [3; 4]]) true true.

(** Two polygons, one on each side of a raster two pixels wide that
    declares no no-data value. *)
Definition west_polygon : Geometry := box (-3) 0 (-1) 1.
Definition east_polygon : Geometry := box 3 0 5 1.
Definition narrow : Raster := raster None 2 1 [[7; 9]].

Definition straddling : world :=
  world_of [west_polygon; east_polygon] narrow true true.

(** A boundary far from the raster. *)
Definition far_away : world := world_of [box 10 10 12 12] nine true true.

(** Every sample of the raster is its declared no-data value. *)
Definition blank : world :=
  world_of [box 0 0 2 2]
           (raster (Some (-999)) 2 2 [[-999; -999]; [-999; -999]]) true true.

(** A readable boundary file that holds no geometry. *)
Definition no_geometries : world := world_of [] nine true true.

Definition fresh : state := initial None None.

(** A grid with a no-data cell, a not-a-number cell and two valid ones. *)
Definition mixed_grid : array2 float :=
  [[Float.of_Z (-999); Float.of_Z 5]; [Float.of_Z 7; NaN]].

(** The scenario when [index.html] cannot be written. *)
Definition scenario_html_readonly : world :=
  world_of [box 0 0 3 3] nine true false.

(** A raster of four by four with no-data declared as -999, cut by a
    boundary that covers its middle columns and hangs over its lower
    edge; the raster's pixels are 30 units wide and high and its
    corner is at (1000, 2000). *)
Definition georeferenced : Raster :=
  mkRaster nad83 (Some (Float.of_Z (-999)))
           (mkAffine 30 0 1000 0 (-30) 2000) 4 4
           (samples [[1; 2; 3; 4]; [5; 6; 7; 8]; [9; 10; 11; 12];
                     [13; 14; 15; 16]]).

Definition overhanging : world :=
  world_of [box_without 1 2 3 6 2 2] georeferenced true true.

End Sample.

(** * Properties *)

(** ** Arrays *)

Lemma nth_error_combine {A B : Type} (l1 : list A) (l2 : list B) (n : nat) :
  nth_error (combine l1 l2) n =
  match nth_error l1 n, nth_error l2 n with
  | Some a, Some b => Some (a, b)
  | _, _ => None
  end.
Proof.
  revert l2 n.
  induction l1 as [|a l1 IH]; intros [|b l2] [|n]; simpl; auto.
  - destruct (nth_error l1 n); reflexivity.
Qed.

Section ArrayFacts.

Context {A B : Type}.

Lemma cell_map2d (f : A -> B) (a : array2 A) (r c : nat) :
  cell (map2d f a) r c = option_map f (cell a r c).
Proof.
  unfold cell, map2d.
  rewrite nth_error_map.
  destruct (nth_error a r) as [row|]; simpl; [apply nth_error_map | reflexivity].
Qed.

Lemma cell_zip2d (a : array2 A) (b : array2 B) (r c : nat) :
  cell (zip2d a b) r c =
  match cell a r c, cell b r c with
  | Some x, Some y => Some (x, y)
  | _, _ => None
  end.
Proof.
  unfold cell, zip2d.
  rewrite nth_error_map, nth_error_combine.
  destruct (nth_error a r) as [ra|]; simpl; [|reflexivity].
  destruct (nth_error b r) as [rb|]; simpl.
  - apply nth_error_combine.
  - destruct (nth_error ra c); reflexivity.
Qed.

End ArrayFacts.

(** ** The colorizer *)

Lemma colorize_inv (data : array2 float) (nodata_value : float) (img : Image) :
  colorize data nodata_value = Ok img ->
  exists vmin vmax,
    percentiles data nodata_value = Ok (vmin, vmax) /\
    img = render (nodata_mask data nodata_value) (rescale data vmin vmax).
Proof.
  unfold colorize, normalized.
  destruct (percentiles data nodata_value) as [[vmin vmax]|e]; [|discriminate].
  intros H. injection H as <-. eauto.
Qed.

Lemma cell_rescale (data : array2 float) (vmin vmax : float) (r c : nat) :
  cell (rescale data vmin vmax) r c =
  option_map (fun v => Float.div (Float.sub (Float.clip v vmin vmax) vmin)
                                 (Float.sub vmax vmin))
             (cell data r c).
Proof.
  unfold rescale. rewrite !cell_map2d.
  destruct (cell data r c); reflexivity.
Qed.

(** The pixel of [render] at a position both arrays have. *)
Lemma cell_render (mask : array2 bool) (data : array2 float) (r c : nat)
      (m : bool) (x : float) :
  cell mask r c = Some m ->
  cell data r c = Some x ->
  cell (render mask data) r c =
  Some (scale_pixel (if m then (0, 0, 0, 0)%Q else Jet.call x)).
Proof.
  intros Hm Hx. unfold render.
  rewrite !cell_map2d, cell_zip2d, cell_map2d, Hm, Hx. reflexivity.
Qed.

(** C4.  Every no-data cell of the clipped grid, that is every cell
    equal to the no-data value or not a number, is the pixel
    [(0, 0, 0, 0)] of the image the colorizer returns: all four
    channels are 0, alpha among them, whatever the cell was clamped
    and rescaled to. *)
Theorem nodata_cell_is_transparent
        (data : array2 float) (nodata_value : float) (img : Image)
        (r c : nat) (v : float) :
  colorize data nodata_value = Ok img ->
  cell data r c = Some v ->
  Float.eqb v nodata_value || Float.isnan v = true ->
  cell img r c = Some (0, 0, 0, 0).
Proof.
  intros Hc Hv Hnd.
  destruct (colorize_inv _ _ _ Hc) as (vmin & vmax & _ & ->).
  assert (Hm : cell (nodata_mask data nodata_value) r c = Some true).
  { unfold nodata_mask. rewrite cell_map2d, Hv. simpl. now rewrite Hnd. }
  assert (Hx : exists x, cell (rescale data vmin vmax) r c = Some x).
  { rewrite cell_rescale, Hv. simpl. eauto. }
  destruct Hx as [x Hx].
  rewrite (cell_render _ _ _ _ _ _ Hm Hx). reflexivity.
Qed.

(** In the grid [Sample.mixed_grid], cell (0, 0) holds the no-data
    value and cell (1, 1) is not a number. *)
Lemma nodata_cell_is_transparent_witness :
  exists img,
    colorize Sample.mixed_grid (Float.of_Z (-999)) = Ok img /\
    cell img 0 0 = Some (0, 0, 0, 0) /\
    cell img 1 1 = Some (0, 0, 0, 0).
Proof.
  eexists. split; [vm_compute; reflexivity|].
  split.
  - eapply (nodata_cell_is_transparent Sample.mixed_grid (Float.of_Z (-999))
              _ 0 0 (Float.of_Z (-999))); reflexivity.
  - eapply (nodata_cell_is_transparent Sample.mixed_grid (Float.of_Z (-999))
              _ 1 1 NaN); reflexivity.
Defined.

(** ** Runs: what a computation leaves alone *)

Lemma quiet_ret {A : Type} (a : A) : quiet (ret a).
Proof. intros w s. simpl. auto. Qed.

Lemma quiet_raise {A : Type} (e : exn) : quiet (@raise A e).
Proof. intros w s. simpl. auto. Qed.

Lemma quiet_lift {A : Type} (r : result A) : quiet (lift r).
Proof. intros w s. simpl. auto. Qed.

Lemma quiet_ask : quiet ask.
Proof. intros w s. simpl. auto. Qed.

Lemma quiet_get : quiet get.
Proof. intros w s. simpl. auto. Qed.

Lemma quiet_bind {A B : Type} (m : M A) (k : A -> M B) :
  quiet m -> (forall a, quiet (k a)) -> quiet (bind m k).
Proof.
  intros Hm Hk w s. unfold bind.
  specialize (Hm w s).
  destruct (m w s) as [[a|e] s1]; simpl in *.
  - specialize (Hk a w s1).
    destruct Hm as (H1 & H2 & H3), Hk as (K1 & K2 & K3).
    repeat split; [congruence | congruence | auto].
  - exact Hm.
Qed.

Lemma quiet_emit (ev : event) :
  (forall p, ev <> Wrote p) -> quiet (emit ev).
Proof.
  intros Hev w s. simpl. repeat split; auto.
  intros p Hin. apply in_app_or in Hin as [Hin|[Hin|[]]]; auto.
  now apply Hev in Hin.
Qed.

Lemma quiet_print (msg : string) : quiet (print msg).
Proof. apply quiet_emit. discriminate. Qed.

Lemma quiet_read_file : quiet read_file.
Proof.
  apply quiet_bind; [apply quiet_ask|].
  intros w. destruct (vector_file w); auto using quiet_raise, quiet_ret.
Qed.

Lemma quiet_to_crs (gdf : GeoDataFrame) (crs : CRS) : quiet (to_crs gdf crs).
Proof.
  unfold to_crs. destruct (gdf_crs gdf), crs; try apply quiet_raise.
  apply quiet_bind; [apply quiet_ask|]. intros; apply quiet_ret.
Qed.

Lemma quiet_modify (f : state -> state) :
  (forall s, png_file (f s) = png_file s) ->
  (forall s, html_file (f s) = html_file s) ->
  (forall s, trace (f s) = trace s) ->
  quiet (modify f).
Proof. intros H1 H2 H3 w s. simpl. rewrite H1, H2, H3. auto. Qed.

Create HintDb quiet.

#[local] Hint Resolve quiet_ret quiet_raise quiet_lift quiet_ask quiet_get
  quiet_print quiet_read_file quiet_to_crs : quiet.

Lemma quiet_open (path : string) : quiet (Rasterio.open path).
Proof.
  apply quiet_bind; [apply quiet_ask|]. intros w.
  destruct (raster_file w); auto with quiet.
  apply quiet_bind; [now apply quiet_modify|]. intros _.
  apply quiet_bind; [apply quiet_emit; discriminate|]. auto with quiet.
Qed.

Lemma quiet_close (path : string) : quiet (Rasterio.close path).
Proof.
  apply quiet_bind; [now apply quiet_modify|]. intros _.
  apply quiet_emit; discriminate.
Qed.

Lemma quiet_with_open {A : Type} (path : string) (body : Raster -> M A) :
  (forall src, quiet (body src)) -> quiet (Rasterio.with_open path body).
Proof.
  intros Hb w s. unfold Rasterio.with_open.
  pose proof (quiet_open path w s) as Ho.
  destruct (Rasterio.open path w s) as [[src|e] s1]; simpl in *; [|exact Ho].
  pose proof (Hb src w s1) as Hb1.
  destruct (body src w s1) as [r s2]; simpl in *.
  pose proof (quiet_close path w s2) as Hc. simpl in Hc.
  destruct Ho as (O1 & O2 & O3), Hb1 as (B1 & B2 & B3), Hc as (C1 & C2 & C3).
  repeat split; [congruence | congruence |].
  intros p Hp. apply O3, B3, C3, Hp.
Qed.

Lemma quiet_crs (src : Raster) : quiet (Rasterio.crs src).
Proof.
  apply quiet_bind; [apply quiet_emit; discriminate|]. auto with quiet.
Qed.

Lemma quiet_nodata (src : Raster) : quiet (Rasterio.nodata src).
Proof.
  apply quiet_bind; [apply quiet_emit; discriminate|]. auto with quiet.
Qed.

Lemma quiet_read_masked (src : Raster) (window : Window) :
  quiet (Rasterio.read_masked src window).
Proof.
  apply quiet_bind; [apply quiet_emit; discriminate|]. auto with quiet.
Qed.

Lemma quiet_mask (src : Raster) (shapes : list Geometry) :
  quiet (Rasterio.mask src shapes).
Proof.
  apply quiet_bind; [apply quiet_nodata|]. intros declared.
  apply quiet_bind.
  { destruct declared; [|apply quiet_ret].
    apply quiet_bind; [apply quiet_nodata|]. intros; apply quiet_ret. }
  intros nodata.
  apply quiet_bind; [apply quiet_lift|]. intros [[shape_mask transform] window].
  apply quiet_bind; [apply quiet_read_masked|]. auto with quiet.
Qed.

Lemma quiet_clip (gdf : GeoDataFrame) (src : Raster) : quiet (clip gdf src).
Proof.
  apply quiet_bind; [apply quiet_crs|]. intros raster_crs.
  apply quiet_bind; [apply quiet_print|]. intros _.
  apply quiet_bind.
  { destruct (crs_eqb _ _); auto with quiet.
    apply quiet_bind; auto with quiet. }
  intros gdf'.
  apply quiet_bind; [apply quiet_mask|]. intros [idaho_clipped idaho_transform].
  apply quiet_bind; [apply quiet_lift|]. intros data.
  destruct (Rasterio.array_bounds _ _ _) as [[[lft bottom] rgt] top].
  apply quiet_bind; auto with quiet.
Qed.

Lemma quiet_load_and_clip : quiet load_and_clip.
Proof.
  apply quiet_bind; [apply quiet_read_file|]. intros gdf.
  apply quiet_with_open. intros src.
  apply quiet_bind; [apply quiet_clip|]. intros [data bounds]. apply quiet_ret.
Qed.

Lemma quiet_nodata_value_of (src : Raster) : quiet (nodata_value_of src).
Proof.
  apply quiet_bind; [apply quiet_nodata|]. intros [n|]; [|apply quiet_ret].
  apply quiet_bind; [apply quiet_nodata|]. intros; apply quiet_ret.
Qed.

(** [main] is its two parts, one after the other. *)
Lemma main_split (w : world) (s : state) :
  main w s =
  match load_and_clip w s with
  | (Ok (src, data, bounds), s1) => colorize_and_publish src data bounds w s1
  | (Raise e, s1) => (Raise e, s1)
  end.
Proof.
  unfold main, load_and_clip, colorize_and_publish, bind.
  destruct (read_file w s) as [[gdf|e] s0]; [|reflexivity].
  destruct (Rasterio.with_open _ _ w s0) as [[[[src data] bounds]|e] s1];
    reflexivity.
Qed.

(** ** Writing the outputs *)

Lemma save_png_readonly (w : world) (img : Image) (s : state) :
  png_writable w = false ->
  save_png img w s = (Raise (OSError image_path), s).
Proof. intros H. unfold save_png, bind, ask. now rewrite H. Qed.

(** C7.  When the image path cannot be written, so that the PNG write
    of line 48 fails, the run ends in an exception, [index.html] is
    what it was before the run and the run writes nothing: the HTML
    write of line 83 is only reached through a PNG write that
    succeeded. *)
Theorem png_failure_blocks_html (w : world) (s : state) :
  png_writable w = false ->
  (exists e, fst (main w s) = Raise e) /\
  html_file (snd (main w s)) = html_file s /\
  (forall p, In (Wrote p) (trace (snd (main w s))) -> In (Wrote p) (trace s)).
Proof.
  intros Hpng. rewrite main_split.
  pose proof (quiet_load_and_clip w s) as (_ & H1 & T1).
  destruct (load_and_clip w s) as [[[[src data] bounds]|e] s1]; simpl in *;
    [|eauto].
  unfold colorize_and_publish, bind.
  pose proof (quiet_nodata_value_of src w s1) as (_ & H2 & T2).
  destruct (nodata_value_of src w s1) as [[nodata_value|e] s2]; simpl in *.
  - unfold lift.
    destruct (colorize data nodata_value) as [img|e]; simpl.
    + rewrite (save_png_readonly _ _ _ Hpng). simpl.
      repeat split; [eauto | congruence | auto].
    + repeat split; [eauto | congruence | auto].
  - repeat split; [eauto | congruence | auto].
Qed.

(** The image path of the specification's scenario made read-only. *)
Lemma png_failure_blocks_html_witness :
  png_writable Sample.scenario_png_readonly = false /\
  fst (main Sample.scenario_png_readonly Sample.fresh)
    = Raise (OSError image_path) /\
  html_file (snd (main Sample.scenario_png_readonly Sample.fresh)) = None.
Proof.
  split; [reflexivity|].
  split; [vm_compute; reflexivity|].
  exact (proj1 (proj2 (png_failure_blocks_html Sample.scenario_png_readonly
                                               Sample.fresh eq_refl))).
Defined.

(** ** A grid with no valid cell *)

Lemma In_combine_map {A B : Type} (f : A -> B) (l : list A) (x : A) (y : B) :
  In (x, y) (combine l (map f l)) -> y = f x.
Proof.
  induction l as [|a l IH]; simpl; [tauto|].
  intros [H|H]; [now injection H as <- <- | auto].
Qed.

Lemma In_cell {A : Type} (a : array2 A) (row : list A) (x : A) :
  In row a -> In x row -> exists r c, cell a r c = Some x.
Proof.
  intros Hr Hx.
  apply In_nth_error in Hr as [r Hr].
  apply In_nth_error in Hx as [c Hx].
  exists r, c. unfold cell. now rewrite Hr.
Qed.

Lemma In_zip2d_map2d {A B : Type} (f : A -> B) (a : array2 A) (x : A) (y : B) :
  In (x, y) (concat (zip2d a (map2d f a))) ->
  y = f x /\ exists r c, cell a r c = Some x.
Proof.
  unfold zip2d, map2d. intros H.
  apply in_concat in H as (l & Hl & Hxy).
  apply in_map_iff in Hl as ([ra rb] & <- & Hin). simpl in Hxy.
  assert (Hrb : rb = map f ra) by (eapply (In_combine_map (map f)); eauto).
  subst rb. split; [eapply In_combine_map; eauto|].
  apply in_combine_l in Hin, Hxy. eapply In_cell; eauto.
Qed.

(** When the mask is true everywhere, [data[~nodata_mask]] is empty. *)
Lemma select_unmasked_empty (data : array2 float) (nodata_value : float) :
  (forall r c v, cell data r c = Some v ->
                 Float.eqb v nodata_value || Float.isnan v = true) ->
  select_unmasked data (nodata_mask data nodata_value) = [].
Proof.
  intros Hall. unfold select_unmasked, nodata_mask.
  rewrite (filter_ext_in _ (fun _ => false)), filter_false; [reflexivity|].
  intros [v m] Hin. apply In_zip2d_map2d in Hin as (-> & r & c & Hc).
  simpl. now rewrite (Hall _ _ _ Hc).
Qed.

Lemma colorize_all_nodata (data : array2 float) (nodata_value : float) :
  (forall r c v, cell data r c = Some v ->
                 Float.eqb v nodata_value || Float.isnan v = true) ->
  colorize data nodata_value = Raise IndexError.
Proof.
  intros Hall. unfold colorize, normalized, percentiles.
  now rewrite select_unmasked_empty.
Qed.

(** C9.  When the run has left the [with] block with a clipped grid in
    which every cell is no-data (equal to the no-data value of line 38,
    or not a number), the percentile call of line 40 is over no value
    at all and the run dies there with numpy's IndexError, which is not
    the error of an empty clip; neither output file is written. *)
Theorem all_nodata_run_fails
        (w : world) (s s1 s2 : state) (src : Raster) (data : array2 float)
        (bounds : (Q * Q) * (Q * Q)) (nodata_value : float) :
  load_and_clip w s = (Ok (src, data, bounds), s1) ->
  nodata_value_of src w s1 = (Ok nodata_value, s2) ->
  (forall r c v, cell data r c = Some v ->
                 Float.eqb v nodata_value || Float.isnan v = true) ->
  select_unmasked data (nodata_mask data nodata_value) = [] /\
  main w s = (Raise IndexError, s2) /\
  png_file s2 = png_file s /\
  html_file s2 = html_file s /\
  (forall p, In (Wrote p) (trace s2) -> In (Wrote p) (trace s)).
Proof.
  intros Hclip Hnd Hall.
  split; [now apply select_unmasked_empty|].
  split.
  - rewrite main_split, Hclip. unfold colorize_and_publish, bind.
    rewrite Hnd. unfold lift. now rewrite colorize_all_nodata.
  - pose proof (quiet_load_and_clip w s) as (P1 & H1 & T1).
    pose proof (quiet_nodata_value_of src w s1) as (P2 & H2 & T2).
    rewrite Hclip in *. rewrite Hnd in *. simpl in *.
    repeat split; [congruence | congruence | auto].
Qed.

(** A raster whose samples all are its declared no-data value. *)
Lemma all_nodata_run_fails_witness :
  fst (main Sample.blank Sample.fresh) = Raise IndexError /\
  png_file (snd (main Sample.blank Sample.fresh)) = None /\
  html_file (snd (main Sample.blank Sample.fresh)) = None.
Proof.
  pose proof (all_nodata_run_fails
                Sample.blank Sample.fresh
                (snd (load_and_clip Sample.blank Sample.fresh))
                (snd (main Sample.blank Sample.fresh))
                (Sample.raster (Some (-999)) 2 2 [[-999; -999]; [-999; -999]])
                [[Float.of_Z (-999); Float.of_Z (-999)];
                 [Float.of_Z (-999); Float.of_Z (-999)]]
                ((-2, 0), (0, 2))%Q
                (Float.of_Z (-999))) as H.
  destruct H as (_ & Hmain & Hpng & Hhtml & _).
  - vm_compute. reflexivity.
  - vm_compute. reflexivity.
  - intros r c v Hc. unfold cell in Hc.
    do 3 (try destruct r as [|r]); simpl in Hc; try discriminate;
      do 3 (try destruct c as [|c]); simpl in Hc; try discriminate;
      injection Hc as <-; reflexivity.
  - rewrite Hmain. simpl. auto.
Defined.

(** ** A boundary that misses the raster *)

Lemma Qmaximum_case (P : Q -> Prop) (x : Q) (l : list Q) :
  P x -> (forall y, In y l -> P y) -> P (Qmaximum x l).
Proof.
  unfold Qmaximum. revert x.
  induction l as [|a l IH]; simpl; intros x Hx Hl; [exact Hx|].
  apply IH; [|auto].
  unfold Qmax, GenericMinMax.gmax. destruct (x ?= a)%Q; auto.
Qed.

Lemma Qminimum_case (P : Q -> Prop) (x : Q) (l : list Q) :
  P x -> (forall y, In y l -> P y) -> P (Qminimum x l).
Proof.
  unfold Qminimum. revert x.
  induction l as [|a l IH]; simpl; intros x Hx Hl; [exact Hx|].
  apply IH; [|auto].
  unfold Qmin, GenericMinMax.gmin. destruct (x ?= a)%Q; auto.
Qed.

Lemma In_cols (shapes : list Geometry) (x : Q) :
  In x (flat_map (fun g => let '(lft, bottom, rgt, top) := g_bounds g in
                           [lft; rgt; rgt; lft]) shapes) ->
  exists g, In g shapes /\ In x (xs_of g).
Proof.
  intros H. apply in_flat_map in H as (g & Hg & Hx).
  exists g. split; [exact Hg|]. unfold xs_of.
  destruct (g_bounds g) as [[[lft bottom] rgt] top].
  simpl in *. intuition.
Qed.

Lemma In_rows (shapes : list Geometry) (y : Q) :
  In y (flat_map (fun g => let '(lft, bottom, rgt, top) := g_bounds g in
                           [top; top; bottom; bottom]) shapes) ->
  exists g, In g shapes /\ In y (ys_of g).
Proof.
  intros H. apply in_flat_map in H as (g & Hg & Hy).
  exists g. split; [exact Hg|]. unfold ys_of.
  destruct (g_bounds g) as [[[lft bottom] rgt] top].
  simpl in *. intuition.
Qed.

Lemma Qceiling_nonpos (q : Q) : (q <= 0)%Q -> Qceiling q <= 0.
Proof. intros H. apply Qceiling_resp_le in H. exact H. Qed.

Lemma Qfloor_at_least (z : Z) (q : Q) : (inject_Z z <= q)%Q -> z <= Qfloor q.
Proof. intros H. apply Qfloor_resp_le in H. now rewrite Qfloor_Z in H. Qed.

(** The window of a boundary whose extent misses the raster has an
    empty intersection with the window of the raster. *)
Lemma geometry_window_misses (src : Raster) (shapes : list Geometry) :
  shapes <> [] ->
  extent_misses_raster src shapes ->
  Rasterio.geometry_window src shapes = Raise WindowError.
Proof.
  intros Hne Hmiss. unfold Rasterio.geometry_window.
  pose proof (In_cols shapes) as Hcols.
  pose proof (In_rows shapes) as Hrows.
  destruct shapes as [|g gs]; [congruence|]. clear Hne.
  cbn [flat_map] in *.
  destruct (g_bounds g) as [[[lft bottom] rgt] top] eqn:Hb.
  cbn [app] in *.
  set (cols' := rgt :: rgt :: lft :: _) in *.
  set (rows' := top :: bottom :: bottom :: _) in *.
  unfold Rasterio.intersection. cbn [col_off row_off width height].
  set (col_start := Qfloor (Qminimum lft cols')).
  set (col_stop := Qceiling (Qmaximum lft cols')).
  set (row_start := Qfloor (Qminimum top rows')).
  set (row_stop := Qceiling (Qmaximum top rows')).
  assert (Hx : forall P : Q -> Prop,
             (forall g' x, In g' (g :: gs) -> In x (xs_of g') -> P x) ->
             forall x, In x (lft :: cols') -> P x).
  { intros P HP x Hin. destruct (Hcols x Hin) as (g' & Hg' & Hx). eauto. }
  assert (Hy : forall P : Q -> Prop,
             (forall g' y, In g' (g :: gs) -> In y (ys_of g') -> P y) ->
             forall y, In y (top :: rows') -> P y).
  { intros P HP y Hin. destruct (Hrows y Hin) as (g' & Hg' & Hy). eauto. }
  match goal with
  | |- (if ?b then _ else _) = _ => assert (Hb' : b = false); [|now rewrite Hb']
  end.
  apply andb_false_iff.
  destruct Hmiss as [H|[H|[H|H]]].
  - left. apply Z.ltb_ge.
    assert (col_stop <= 0).
    { apply Qceiling_nonpos, Qmaximum_case.
      - apply (Hx _ H). now left.
      - intros y Hin. apply (Hx _ H). now right. }
    lia.
  - left. apply Z.ltb_ge.
    assert (r_width src <= col_start).
    { apply Qfloor_at_least, Qminimum_case.
      - apply (Hx _ H). now left.
      - intros y Hin. apply (Hx _ H). now right. }
    lia.
  - right. apply Z.ltb_ge.
    assert (row_stop <= 0).
    { apply Qceiling_nonpos, Qmaximum_case.
      - apply (Hy _ H). now left.
      - intros y Hin. apply (Hy _ H). now right. }
    lia.
  - right. apply Z.ltb_ge.
    assert (r_height src <= row_start).
    { apply Qfloor_at_least, Qminimum_case.
      - apply (Hy _ H). now left.
      - intros y Hin. apply (Hy _ H). now right. }
    lia.
Qed.

Lemma raster_geometry_mask_misses (src : Raster) (shapes : list Geometry) :
  shapes <> [] ->
  extent_misses_raster src shapes ->
  Rasterio.raster_geometry_mask src shapes =
  Raise (ValueError "Input shapes do not overlap raster.").
Proof.
  intros Hne Hmiss. unfold Rasterio.raster_geometry_mask.
  now rewrite geometry_window_misses.
Qed.

Lemma bind_raise {A B : Type} (m : M A) (k : A -> M B)
      (w : world) (s s' : state) (e : exn) :
  m w s = (Raise e, s') -> bind m k w s = (Raise e, s').
Proof. intros H. unfold bind. now rewrite H. Qed.

Lemma bind_ok {A B : Type} (m : M A) (k : A -> M B)
      (w : world) (s s' : state) (a : A) :
  m w s = (Ok a, s') -> bind m k w s = k a w s'.
Proof. intros H. unfold bind. now rewrite H. Qed.

Lemma bind_lift {A B : Type} (r : result A) (k : A -> M B)
      (w : world) (s : state) :
  bind (lift r) k w s =
  match r with
  | Ok a => k a w s
  | Raise e => (Raise e, s)
  end.
Proof. destruct r; reflexivity. Qed.

(** ** The [with] block, step by step *)

Lemma combine_map_map {A B C : Type} (f : A -> B) (g : A -> C) (l : list A) :
  combine (map f l) (map g l) = map (fun x => (f x, g x)) l.
Proof. induction l as [|a l IH]; simpl; [reflexivity | now rewrite IH]. Qed.

Lemma zip2d_tabulate {A B : Type} (h w : Z) (f : Z -> Z -> A) (g : Z -> Z -> B) :
  zip2d (tabulate h w f) (tabulate h w g)
  = tabulate h w (fun i j => (f i j, g i j)).
Proof.
  unfold zip2d, tabulate.
  rewrite combine_map_map, map_map.
  apply map_ext. intros i. cbn [fst snd]. apply combine_map_map.
Qed.

Lemma map2d_tabulate {A B : Type} (k : A -> B) (h w : Z) (f : Z -> Z -> A) :
  map2d k (tabulate h w f) = tabulate h w (fun i j => k (f i j)).
Proof.
  unfold map2d, tabulate. rewrite map_map.
  apply map_ext. intros i. apply map_map.
Qed.

(** [mask] in full: the window decides between a grid and an
    exception; the handle and the two files are left alone. *)
Lemma mask_run (src : Raster) (shapes : list Geometry) (w : world) (s : state) :
  exists s',
    handle_open s' = handle_open s /\
    Rasterio.mask src shapes w s =
    (match Rasterio.geometry_window src shapes with
     | Ok win =>
         Ok ([clipped src shapes win], Rasterio.window_transform src win)
     | Raise WindowError =>
         Raise (ValueError "Input shapes do not overlap raster.")
     | Raise e => Raise e
     end, s').
Proof.
  unfold Rasterio.mask, Rasterio.nodata, Rasterio.raster_geometry_mask,
    Rasterio.read_masked, clipped, clipped_cell,
    bind, emit, modify, lift, ret.
  cbn [handle_open png_file html_file trace].
  destruct (r_nodata src) as [n|];
    cbn [handle_open png_file html_file trace];
    (destruct (Rasterio.geometry_window src shapes) as [win|e];
     [ cbn [handle_open png_file html_file trace];
       rewrite zip2d_tabulate, map2d_tabulate
     | destruct e ]);
    eexists; (split; [|reflexivity]); reflexivity.
Qed.

Lemma crs_eqb_true (a b : CRS) : crs_eqb a b = true -> a = b.
Proof.
  destruct a as [x|], b as [y|]; simpl; try discriminate; auto.
  intros H. apply String.eqb_eq in H. now subst.
Qed.

Lemma crs_eqb_refl (a : CRS) : crs_eqb a a = true.
Proof. destruct a as [x|]; simpl; [apply String.eqb_refl | reflexivity]. Qed.

(** Lines 23 to 37 when the frame can be handed to [mask]. *)
Lemma clip_run (gdf : GeoDataFrame) (src : Raster) (w : world) (s : state) :
  crs_compatible gdf src ->
  exists s',
    handle_open s' = handle_open s /\
    clip gdf src w s = (clip_outcome w gdf src, s').
Proof.
  intros Hcrs. unfold clip_outcome, shapes_for.
  unfold clip, Rasterio.crs, print, emit, modify, bind, ret, lift.
  cbn [handle_open png_file html_file trace].
  assert (Hto : crs_eqb (gdf_crs gdf) (r_crs src) = false ->
                exists x y, gdf_crs gdf = Some x /\ r_crs src = Some y).
  { intros Hne. destruct Hcrs as [Heq | [Hg Hr]].
    - rewrite Heq, crs_eqb_refl in Hne. discriminate.
    - destruct (gdf_crs gdf) as [x|], (r_crs src) as [y|]; try congruence; eauto. }
  destruct (crs_eqb (gdf_crs gdf) (r_crs src)).
  - match goal with
    | |- context [Rasterio.mask ?a ?b ?c ?d] =>
        destruct (mask_run a b c d) as (s' & Hh & ->)
    end.
    destruct (Rasterio.geometry_window src (gdf_geometry gdf)) as [win|e].
    + cbn -[Rasterio.array_bounds].
      destruct (Rasterio.array_bounds _ _ _) as [[[lft bottom] rgt] top].
      cbn. eexists. split; [|reflexivity]. exact Hh.
    + destruct e; cbn; eexists; (split; [|reflexivity]); exact Hh.
  - destruct (Hto eq_refl) as (x & y & Hx & Hy).
    unfold to_crs, bind, ask, ret. rewrite Hx, Hy.
    cbn [handle_open png_file html_file trace gdf_geometry gdf_crs].
    match goal with
    | |- context [Rasterio.mask ?a ?b ?c ?d] =>
        destruct (mask_run a b c d) as (s' & Hh & ->)
    end.
    destruct (Rasterio.geometry_window src _) as [win|e].
    + cbn -[Rasterio.array_bounds].
      destruct (Rasterio.array_bounds _ _ _) as [[[lft bottom] rgt] top].
      cbn. eexists. split; [|reflexivity]. exact Hh.
    + destruct e; cbn; eexists; (split; [|reflexivity]); exact Hh.
Qed.

(** Lines 23 to 37 when it cannot: [to_crs] raises at line 27. *)
Lemma clip_raises (gdf : GeoDataFrame) (src : Raster) (w : world) (s : state) :
  ~ crs_compatible gdf src ->
  exists msg s', clip gdf src w s = (Raise (ValueError msg), s').
Proof.
  intros Hcrs.
  unfold clip, Rasterio.crs, print, emit, modify, bind, ret, lift.
  cbn [handle_open png_file html_file trace].
  destruct (crs_eqb (gdf_crs gdf) (r_crs src)) eqn:Heq.
  - exfalso. apply Hcrs. left. now apply crs_eqb_true.
  - unfold to_crs.
    destruct (gdf_crs gdf) as [x|] eqn:Hx; [destruct (r_crs src) as [y|] eqn:Hy|].
    + exfalso. apply Hcrs. right. split; congruence.
    + cbn. eauto.
    + cbn. eauto.
Qed.

Lemma crs_compatible_dec (gdf : GeoDataFrame) (src : Raster) :
  crs_compatible gdf src \/ ~ crs_compatible gdf src.
Proof.
  unfold crs_compatible.
  destruct (crs_eqb (gdf_crs gdf) (r_crs src)) eqn:Heq.
  - left. left. now apply crs_eqb_true.
  - destruct (gdf_crs gdf) as [x|], (r_crs src) as [y|].
    + left. right. split; discriminate.
    + right. intros [H | [_ H]]; [discriminate | congruence].
    + right. intros [H | [H _]]; [discriminate | congruence].
    + simpl in Heq. discriminate.
Qed.

(** Lines 21 to 37 when both files load and the frame can be handed to
    [mask]: the handle ends closed, and the outcome is that of the
    clip. *)
Lemma load_and_clip_run
      (w : world) (s : state) (gdf : GeoDataFrame) (src : Raster) :
  vector_file w = Content gdf ->
  raster_file w = Content src ->
  crs_compatible gdf src ->
  exists s1,
    handle_open s1 = false /\
    load_and_clip w s =
    (match clip_outcome w gdf src with
     | Ok (data, bounds) => Ok (src, data, bounds)
     | Raise e => Raise e
     end, s1).
Proof.
  intros Hv Hr Hcrs.
  unfold load_and_clip, read_file, Rasterio.with_open, Rasterio.open.
  unfold bind at 1 2, ask. rewrite Hv. unfold bind at 1 2 3, ask, ret, emit, modify.
  rewrite Hr. cbn [handle_open png_file html_file trace].
  unfold bind at 1.
  match goal with
  | |- context [clip ?a ?b ?c ?d] =>
      destruct (clip_run a b c d Hcrs) as (s' & Hh & ->)
  end.
  destruct (clip_outcome w gdf src) as [[data bounds]|e]; cbn;
    eexists; (split; [|reflexivity]); reflexivity.
Qed.

(** What a run that leaves the [with] block normally went through, and
    what it hands on to line 38. *)
Lemma load_and_clip_inv
      (w : world) (s s1 : state) (src : Raster) (data : array2 float)
      (bounds : (Q * Q) * (Q * Q)) :
  load_and_clip w s = (Ok (src, data, bounds), s1) ->
  exists gdf win,
    vector_file w = Content gdf /\
    raster_file w = Content src /\
    crs_compatible gdf src /\
    Rasterio.geometry_window src (shapes_for w gdf src) = Ok win /\
    data = clipped src (shapes_for w gdf src) win /\
    bounds = overlay_bounds
               (Rasterio.array_bounds (Z.of_nat (length data))
                                      (Z.of_nat (length (hd [] data)))
                                      (Rasterio.window_transform src win)) /\
    handle_open s1 = false.
Proof.
  intros Hrun.
  destruct (vector_file w) as [| |gdf] eqn:Hv;
    try (unfold load_and_clip, read_file, bind, ask in Hrun;
         rewrite Hv in Hrun; discriminate).
  destruct (raster_file w) as [| |src0] eqn:Hr;
    try (unfold load_and_clip, read_file, Rasterio.with_open, Rasterio.open,
           bind, ask in Hrun;
         rewrite Hv, Hr in Hrun; discriminate).
  destruct (crs_compatible_dec gdf src0) as [Hcrs | Hcrs].
  - destruct (load_and_clip_run w s gdf src0 Hv Hr Hcrs) as (s1' & Hh & Heq).
    rewrite Heq in Hrun. unfold clip_outcome in Hrun.
    destruct (Rasterio.geometry_window src0 (shapes_for w gdf src0))
      as [win|e] eqn:Hwin.
    + cbv zeta in Hrun. injection Hrun as <- <- <- <-.
      exists gdf, win. repeat split; auto.
    + destruct e; discriminate.
  - exfalso.
    unfold load_and_clip, read_file, Rasterio.with_open, Rasterio.open in Hrun.
    unfold bind at 1 2, ask in Hrun. rewrite Hv in Hrun.
    unfold bind at 1 2 3, ask, ret, emit, modify in Hrun.
    rewrite Hr in Hrun. cbn [handle_open png_file html_file trace] in Hrun.
    unfold bind at 1 in Hrun.
    match type of Hrun with
    | context [clip ?a ?b ?c ?d] =>
        destruct (clip_raises a b c d Hcrs) as (msg & s' & Hc)
    end.
    rewrite Hc in Hrun. discriminate.
Qed.

(** Lines 21 to 37 on a boundary whose extent misses the raster:
    [mask] raises inside the [with] block. *)
Lemma load_and_clip_misses (w : world) (s : state)
      (gdf : GeoDataFrame) (src : Raster) :
  vector_file w = Content gdf ->
  raster_file w = Content src ->
  crs_compatible gdf src ->
  shapes_for w gdf src <> [] ->
  extent_misses_raster src (shapes_for w gdf src) ->
  fst (load_and_clip w s) =
  Raise (ValueError "Input shapes do not overlap raster.").
Proof.
  intros Hv Hr Hcrs Hne Hmiss.
  destruct (load_and_clip_run w s gdf src Hv Hr Hcrs) as (s1 & _ & ->).
  unfold clip_outcome. now rewrite (geometry_window_misses _ _ Hne Hmiss).
Qed.

(** C3, as the code has it.  Both files load; the boundary frame can
    be brought into the raster's CRS (the two are equal, or both are
    set, so that line 27 does not raise); it holds at least one
    polygon; and the joint bounding box of its polygons, measured in the
    raster's pixel coordinates (columns and rows, through the inverse
    of the raster's transform), lies wholly on one side of the pixel
    grid.  Then the run dies at line 29 with rasterio's "Input shapes do
    not overlap raster." and writes neither the PNG nor the HTML
    file. *)
Theorem extent_miss_is_reported
        (w : world) (s : state) (gdf : GeoDataFrame) (src : Raster) :
  vector_file w = Content gdf ->
  raster_file w = Content src ->
  crs_compatible gdf src ->
  shapes_for w gdf src <> [] ->
  extent_misses_raster src (shapes_for w gdf src) ->
  fst (main w s) = Raise (ValueError "Input shapes do not overlap raster.") /\
  png_file (snd (main w s)) = png_file s /\
  html_file (snd (main w s)) = html_file s /\
  (forall p, In (Wrote p) (trace (snd (main w s))) -> In (Wrote p) (trace s)).
Proof.
  intros Hv Hr Hcrs Hne Hmiss.
  pose proof (load_and_clip_misses w s gdf src Hv Hr Hcrs Hne Hmiss) as Hfail.
  pose proof (quiet_load_and_clip w s) as Hq.
  rewrite main_split.
  destruct (load_and_clip w s) as [[[[src' data] bounds]|e] s1]; simpl in *;
    [discriminate|].
  injection Hfail as ->. split; [reflexivity | exact Hq].
Qed.

(** A boundary ten pixels away from a raster of three by three. *)
Lemma extent_miss_is_reported_witness :
  fst (main Sample.far_away Sample.fresh)
    = Raise (ValueError "Input shapes do not overlap raster.") /\
  png_file (snd (main Sample.far_away Sample.fresh)) = None /\
  html_file (snd (main Sample.far_away Sample.fresh)) = None.
Proof.
  pose proof (extent_miss_is_reported
                Sample.far_away Sample.fresh
                (mkGeoDataFrame Sample.nad83 [Sample.box 10 10 12 12])
                Sample.nine eq_refl eq_refl (or_introl eq_refl)) as H.
  destruct H as (Hres & Hpng & Hhtml & _).
  - discriminate.
  - right. left. intros g x [<-|[]] [<-|[<-|[]]]; unfold Qle; simpl; lia.
  - auto.
Defined.

(** C3 as stated fails.  Neither polygon of [Sample.straddling] meets
    the raster, one lying west of it and one east, yet their joint
    bounding box covers it: [mask] returns a grid, the run ends
    normally, and both files are written. *)
Lemma disjoint_polygons_still_render :
  (forall g, In g [Sample.west_polygon; Sample.east_polygon] ->
             polygon_misses_raster Sample.narrow g) /\
  fst (main Sample.straddling Sample.fresh) = Ok tt /\
  png_file (snd (main Sample.straddling Sample.fresh))
    = Some [[(0, 0, 0, 0); (0, 0, 0, 0)]] /\
  html_file (snd (main Sample.straddling Sample.fresh)) <> None /\
  In (Wrote image_path) (trace (snd (main Sample.straddling Sample.fresh))) /\
  In (Wrote html_path) (trace (snd (main Sample.straddling Sample.fresh))).
Proof.
  split.
  - intros g [<-|[<-|[]]].
    + left. intros g x [<-|[]] [<-|[<-|[]]]; unfold Qle; simpl; lia.
    + right. left. intros g x [<-|[]] [<-|[<-|[]]]; unfold Qle; simpl; lia.
  - vm_compute. repeat split; try discriminate; auto 20.
Qed.

(** ** Loading the boundaries *)

(** C6, as the code has it.  [read_file] raises exactly when the
    boundary file is missing or unreadable, and the run then ends there
    with nothing done; any readable file is returned as it is, its
    geometries and its CRS, and reading leaves the state untouched. *)
Theorem read_file_outcome (w : world) (s : state) :
  match vector_file w with
  | Content gdf => read_file w s = (Ok gdf, s)
  | Missing | Unreadable =>
      read_file w s = (Raise DataSourceError, s) /\
      main w s = (Raise DataSourceError, s)
  end.
Proof.
  unfold main, read_file, bind, ask.
  destruct (vector_file w); auto.
Qed.

(** C6 as stated fails.  A readable boundary file with no geometry in
    it is loaded without an error, as an empty collection; the run only
    dies later, at line 29, inside [mask]. *)
Lemma empty_boundary_file_loads :
  vector_file Sample.no_geometries
    = Content (mkGeoDataFrame Sample.nad83 []) /\
  read_file Sample.no_geometries Sample.fresh
    = (Ok (mkGeoDataFrame Sample.nad83 []), Sample.fresh) /\
  fst (main Sample.no_geometries Sample.fresh)
    = Raise (ValueError "min() arg is an empty sequence").
Proof. repeat split. Qed.

(** ** The no-data value *)

(** C2, at the failing input.  The raster of [Sample.undeclared]
    declares no no-data value and pixel (1, 1) of the window lies
    outside the boundary.  [mask] fills that pixel with 0, its own
    default; line 38 then takes -32000 as the no-data value; the mask of
    line 39 is false everywhere, and the pixel comes out opaque. *)
Theorem undeclared_nodata_fill_differs :
  clipped_grid Sample.undeclared Sample.fresh
    = Some [[Float.of_Z 1; Float.of_Z 2]; [Float.of_Z 3; Float.of_Z 0]] /\
  sentinel Sample.undeclared Sample.fresh = Some (Float.of_Z (-32000)) /\
  nodata_mask [[Float.of_Z 1; Float.of_Z 2]; [Float.of_Z 3; Float.of_Z 0]]
              (Float.of_Z (-32000))
    = [[false; false]; [false; false]] /\
  png_file (snd (main Sample.undeclared Sample.fresh))
    = Some [[(0, 204, 255, 255); (255, 222, 0, 255)];
            [(127, 0, 0, 255); (0, 0, 127, 255)]].
Proof. vm_compute. repeat split. Qed.

(** However its body ends, a [with] block leaves the handle closed. *)
Lemma with_open_closes {A : Type} (path : string) (body : Raster -> M A)
      (w : world) (s s1 : state) (a : A) :
  Rasterio.with_open path body w s = (Ok a, s1) ->
  handle_open s1 = false /\ exists before, trace s1 = before ++ [Closed path].
Proof.
  unfold Rasterio.with_open.
  destruct (Rasterio.open path w s) as [[src|e] s0]; [|discriminate].
  destruct (body src w s0) as [r s2]. simpl.
  intros H. injection H as -> <-. simpl. eauto.
Qed.

(** The same when the body raised: once the file has been opened, the
    block ends with the handle closed whatever the body did. *)
Lemma with_open_releases {A : Type} (path : string) (body : Raster -> M A)
      (w : world) (s s0 : state) (src : Raster) :
  Rasterio.open path w s = (Ok src, s0) ->
  handle_open (snd (Rasterio.with_open path body w s)) = false.
Proof.
  intros Ho. unfold Rasterio.with_open. rewrite Ho.
  destruct (body src w s0) as [r s2]. reflexivity.
Qed.

(** C8, on every run.  Whenever the [with] block is left normally the
    handle is closed, [Closed] being the last event so far, and the
    next thing the run does, at line 38, is to read [src.nodata]. *)
Theorem nodata_is_read_after_close
        (w : world) (s s1 : state) (src : Raster) (data : array2 float)
        (bounds : (Q * Q) * (Q * Q)) :
  load_and_clip w s = (Ok (src, data, bounds), s1) ->
  handle_open s1 = false /\
  (exists before, trace s1 = before ++ [Closed tif_path]) /\
  (exists after,
     trace (snd (nodata_value_of src w s1))
     = trace s1 ++ GetAttr "nodata" :: after).
Proof.
  intros Hrun.
  assert (Hclosed : handle_open s1 = false /\
                    exists before, trace s1 = before ++ [Closed tif_path]).
  { unfold load_and_clip in Hrun.
    destruct (read_file w s) as [[gdf|e] s0] eqn:Hread.
    - rewrite (bind_ok _ _ _ _ _ _ Hread) in Hrun.
      eapply with_open_closes; eauto.
    - rewrite (bind_raise _ _ _ _ _ _ Hread) in Hrun. discriminate. }
  destruct Hclosed as [Hhandle Htrace].
  split; [exact Hhandle|]. split; [exact Htrace|]. clear Hrun Hhandle Htrace.
  unfold nodata_value_of, Rasterio.nodata, bind, emit, modify, ret.
  cbn [handle_open png_file html_file trace].
  destruct (r_nodata src) as [n|]; simpl.
  - exists [GetAttr "nodata"]. now rewrite <- app_assoc.
  - exists []. reflexivity.
Qed.

(** The scenario of the specification: the whole trace of the run. *)
Lemma nodata_is_read_after_close_witness :
  trace (snd (main Sample.scenario Sample.fresh))
  = [ Opened tif_path; GetAttr "crs"; Print "Raster CRS:";
      GetAttr "nodata"; GetAttr "nodata";
      ReadBands; Print "Bounds for Idaho:"; Closed tif_path;
      GetAttr "nodata"; GetAttr "nodata";
      Wrote image_path; Wrote html_path; Print "Saved Idaho overlay map." ] /\
  handle_open (snd (load_and_clip Sample.scenario Sample.fresh)) = false.
Proof.
  split; [vm_compute; reflexivity|].
  destruct (load_and_clip Sample.scenario Sample.fresh)
    as [[[[src data] bounds]|e] s1] eqn:Hrun.
  - exact (proj1 (nodata_is_read_after_close _ _ _ _ _ _ Hrun)).
  - vm_compute in Hrun. discriminate.
Defined.

(** ** The degenerate range *)

Lemma Qnum_zero (q : Q) : (q == 0)%Q -> Qnum q = 0.
Proof. unfold Qeq. simpl. lia. Qed.

Lemma huge_pos : (0 < Float.huge)%Q.
Proof. reflexivity. Qed.

(** A result below the overflow threshold is stored as it is. *)
Lemma round_small (q : Q) :
  (- Float.huge < q)%Q -> (q < Float.huge)%Q -> Float.round q = Fin (Qred q).
Proof.
  intros Hlo Hhi. unfold Float.round.
  destruct (Qle_bool Float.huge q) eqn:H1.
  - apply Qle_bool_iff in H1. exfalso. apply (Qlt_not_le _ _ Hhi H1).
  - destruct (Qle_bool q (- Float.huge)) eqn:H2; [|reflexivity].
    apply Qle_bool_iff in H2. exfalso. apply (Qlt_not_le _ _ Hlo H2).
Qed.

Lemma sub_fin (a b : Q) :
  Float.sub (Fin a) (Fin b) = Float.round (a + Qred (- b)).
Proof. reflexivity. Qed.

Lemma sub_fin_zero (a b : Q) :
  (a == b)%Q -> exists d, Float.sub (Fin a) (Fin b) = Fin d /\ (d == 0)%Q.
Proof.
  intros H. rewrite sub_fin.
  assert (Hz : (a + Qred (- b) == 0)%Q) by (rewrite Qred_correct, H; ring).
  pose proof huge_pos as Hh.
  rewrite round_small.
  - eexists. split; [reflexivity|]. now rewrite Qred_correct.
  - rewrite Hz. lra.
  - rewrite Hz. exact Hh.
Qed.

(** [0/0] is not a number. *)
Lemma div_zero_zero (n d : Q) :
  (n == 0)%Q -> (d == 0)%Q -> Float.div (Fin n) (Fin d) = NaN.
Proof.
  intros Hn Hd. unfold Float.div.
  rewrite (Qeq_eq_bool _ _ Hd).
  unfold Float.signed_inf, Float.sgn. now rewrite (Qnum_zero _ Hn).
Qed.

(** Between equal bounds, [np.clip] returns a bound or not-a-number. *)
Lemma clip_degenerate (a b : Q) (x : float) :
  (a == b)%Q ->
  Float.clip x (Fin a) (Fin b) = NaN \/
  Float.clip x (Fin a) (Fin b) = Fin a \/
  Float.clip x (Fin a) (Fin b) = Fin b.
Proof.
  intros Hab. unfold Float.clip, Float.maximum, Float.minimum.
  destruct x as [c| | |]; cbn [Float.leb]; auto.
  - destruct (Qle_bool c a) eqn:Hca; cbn [Float.leb].
    + destruct (Qle_bool a b); auto.
    + assert (Hcb : Qle_bool c b = false) by (now rewrite <- Hab).
      rewrite Hcb. auto.
  - destruct (Qle_bool a b); auto.
Qed.

(** Lines 41 and 42 on one cell, when [vmin == vmax]. *)
Lemma rescale_cell_degenerate (vmin vmax x : float) :
  Float.eqb vmin vmax = true ->
  Float.div (Float.sub (Float.clip x vmin vmax) vmin) (Float.sub vmax vmin) = NaN.
Proof.
  destruct vmin as [a| | |], vmax as [b| | |]; try discriminate.
  - cbn [Float.eqb]. intros Hab. apply Qeq_bool_iff in Hab.
    destruct (sub_fin_zero b a) as (d & -> & Hd); [now symmetry|].
    destruct (clip_degenerate a b x Hab) as [-> | [-> | ->]].
    + reflexivity.
    + destruct (sub_fin_zero a a) as (n & -> & Hn); [reflexivity|].
      now apply div_zero_zero.
    + destruct (sub_fin_zero b a) as (n & -> & Hn); [now symmetry|].
      now apply div_zero_zero.
  - intros _. destruct (Float.sub (Float.clip x PInf PInf) PInf); reflexivity.
  - intros _. destruct (Float.sub (Float.clip x NInf NInf) NInf); reflexivity.
Qed.

(** C1, on the code.  When the two percentiles are equal, the division
    of line 42 is [0/0] on every cell: no exception is raised, but the
    value of every cell after line 42 is not-a-number rather than 0, and
    every pixel of the image, the valid ones included, is
    [(0, 0, 0, 0)], the colormap painting nothing where it is given no
    number. *)
Theorem degenerate_range_is_not_a_number
        (data : array2 float) (nodata_value vmin vmax : float)
        (r c : nat) (x : float) :
  percentiles data nodata_value = Ok (vmin, vmax) ->
  Float.eqb vmin vmax = true ->
  cell data r c = Some x ->
  (exists arr, normalized data nodata_value = Ok arr /\
               cell arr r c = Some NaN) /\
  (exists img, colorize data nodata_value = Ok img /\
               cell img r c = Some (0, 0, 0, 0)).
Proof.
  intros Hp Heq Hx.
  assert (Hcell : cell (rescale data vmin vmax) r c = Some NaN).
  { rewrite cell_rescale, Hx. simpl. now rewrite rescale_cell_degenerate. }
  split.
  - exists (rescale data vmin vmax). unfold normalized. now rewrite Hp.
  - exists (render (nodata_mask data nodata_value) (rescale data vmin vmax)).
    unfold colorize, normalized. rewrite Hp. split; [reflexivity|].
    assert (Hm : exists m, cell (nodata_mask data nodata_value) r c = Some m).
    { unfold nodata_mask. rewrite cell_map2d, Hx. simpl. eauto. }
    destruct Hm as [m Hm].
    rewrite (cell_render _ _ _ _ _ _ Hm Hcell). now destruct m.
Qed.

(** Four cells, all of them 5 and none of them no-data. *)
Lemma degenerate_range_is_not_a_number_witness :
  percentiles Sample.flat_grid (Float.of_Z (-999))
    = Ok (Float.of_Z 5, Float.of_Z 5) /\
  nodata_mask Sample.flat_grid (Float.of_Z (-999))
    = [[false; false]; [false; false]] /\
  normalized Sample.flat_grid (Float.of_Z (-999))
    = Ok [[NaN; NaN]; [NaN; NaN]] /\
  (exists img, colorize Sample.flat_grid (Float.of_Z (-999)) = Ok img /\
               cell img 0 0 = Some (0, 0, 0, 0)).
Proof.
  split; [vm_compute; reflexivity|].
  split; [vm_compute; reflexivity|].
  split; [vm_compute; reflexivity|].
  refine (proj2 (degenerate_range_is_not_a_number
                   Sample.flat_grid (Float.of_Z (-999))
                   (Float.of_Z 5) (Float.of_Z 5) 0 0 (Float.of_Z 5) _ _ _));
    vm_compute; reflexivity.
Defined.

(** ** A range that is not degenerate *)

(** Between bounds [a < b], [np.clip] of a number is a number within
    the bounds. *)
Lemma clip_within (a b : Q) (x : float) :
  (a < b)%Q ->
  Float.isnan x = false ->
  exists c, Float.clip x (Fin a) (Fin b) = Fin c /\ (a <= c)%Q /\ (c <= b)%Q.
Proof.
  intros Hab Hx. unfold Float.clip, Float.maximum, Float.minimum.
  assert (Hle : Qle_bool a b = true) by (apply Qle_bool_iff, Qlt_le_weak, Hab).
  destruct x as [q| | |]; cbn [Float.leb]; try discriminate.
  - destruct (Qle_bool q a) eqn:Hqa; cbn [Float.leb].
    + rewrite Hle. exists a. repeat split; [apply Qle_refl | now apply Qlt_le_weak].
    + assert (Haq : (a <= q)%Q).
      { apply Qlt_le_weak, Qnot_le_lt. intros H.
        apply Qle_bool_iff in H. congruence. }
      destruct (Qle_bool q b) eqn:Hqb.
      * exists q. repeat split; [exact Haq | now apply Qle_bool_iff].
      * exists b. repeat split; [now apply Qlt_le_weak | apply Qle_refl].
  - exists b. repeat split; [now apply Qlt_le_weak | apply Qle_refl].
  - rewrite Hle. exists a. repeat split; [apply Qle_refl | now apply Qlt_le_weak].
Qed.

(** Lines 41 and 42 on one cell that holds a number, when
    [vmin < vmax] and [vmax - vmin] does not overflow: the outcome is a
    number of [[0, 1]]. *)
Lemma rescale_cell_within (a b : Q) (x : float) :
  (a < b)%Q ->
  (b - a < Float.huge)%Q ->
  Float.isnan x = false ->
  exists y,
    Float.div (Float.sub (Float.clip x (Fin a) (Fin b)) (Fin a))
              (Float.sub (Fin b) (Fin a)) = Fin y /\
    (0 <= y)%Q /\ (y <= 1)%Q.
Proof.
  intros Hab Hbig Hx.
  destruct (clip_within a b x Hab Hx) as (c & -> & Hac & Hcb).
  rewrite !sub_fin.
  pose proof huge_pos as Hh.
  assert (Hone : (1 < Float.huge)%Q) by reflexivity.
  pose proof (Qred_correct (- a)) as Ha.
  set (a' := Qred (- a)) in *. clearbody a'.
  rewrite (round_small (c + a')), (round_small (b + a')) by lra.
  set (n := Qred (c + a')).
  set (d := Qred (b + a')).
  assert (Hn : (n == c - a)%Q) by (unfold n; rewrite Qred_correct; lra).
  assert (Hd : (d == b - a)%Q) by (unfold d; rewrite Qred_correct; lra).
  clearbody n d.
  assert (Hd0 : (0 < d)%Q) by lra.
  assert (Hz : Qeq_bool d 0 = false).
  { destruct (Qeq_bool d 0) eqn:E; [|reflexivity].
    apply Qeq_bool_iff in E. lra. }
  assert (Hq0 : (0 <= n / d)%Q).
  { apply Qle_shift_div_l; [exact Hd0 | lra]. }
  assert (Hq1 : (n / d <= 1)%Q).
  { apply Qle_shift_div_r; [exact Hd0 | lra]. }
  unfold Float.div. rewrite Hz.
  set (q := (n / d)%Q) in *. clearbody q.
  rewrite round_small by lra.
  eexists. split; [reflexivity|]. rewrite Qred_correct. now split.
Qed.

(** X12.  For every valid cell, when the percentiles are numbers with
    [vmin < vmax] whose difference [vmax - vmin] does not overflow, the
    value after line 42 lies in [[0, 1]]. *)
Lemma valid_cell_in_unit_interval
      (data : array2 float) (nodata_value : float) (a b : Q)
      (r c : nat) (x : float) :
  percentiles data nodata_value = Ok (Fin a, Fin b) ->
  (a < b)%Q ->
  (b - a < Float.huge)%Q ->
  cell data r c = Some x ->
  Float.isnan x = false ->
  exists arr y,
    normalized data nodata_value = Ok arr /\
    cell arr r c = Some y /\ in_unit_interval y = true.
Proof.
  intros Hp Hab Hbig Hx Hnan.
  destruct (rescale_cell_within a b x Hab Hbig Hnan) as (y & Hy & H0 & H1).
  exists (rescale data (Fin a) (Fin b)), (Fin y).
  unfold normalized. rewrite Hp. split; [reflexivity|].
  rewrite cell_rescale, Hx. cbn [option_map]. rewrite Hy. split; [reflexivity|].
  unfold in_unit_interval. cbn [Float.leb].
  apply andb_true_iff. split; now apply Qle_bool_iff.
Qed.

(** The percentiles of the nine values of the specification's scenario
    are strictly inside their minimum -25 and their maximum 12. *)
Example percentiles_of_nine :
  clipped_grid Sample.scenario Sample.fresh
    = Some (map (map Float.of_Z) [[-25; -15; -15]; [-15; 0; 0]; [10; 10; 12]]) /\
  percentiles (map (map Float.of_Z) [[-25; -15; -15]; [-15; 0; 0]; [10; 10; 12]])
              (Float.of_Z (-999))
    = Ok (Fin (- (117 # 5)), Fin (292 # 25)).
Proof. vm_compute. split; reflexivity. Qed.

(** C5, at the failing input.  On the grid [Sample.flat_grid] the two
    percentiles are both 5; cell (0, 0) is valid, and its value after
    clamping and rescaling is not-a-number, which is not in [[0, 1]]. *)
Theorem degenerate_range_leaves_unit_interval :
  percentiles Sample.flat_grid (Float.of_Z (-999))
    = Ok (Float.of_Z 5, Float.of_Z 5) /\
  cell (nodata_mask Sample.flat_grid (Float.of_Z (-999))) 0 0 = Some false /\
  exists arr y,
    normalized Sample.flat_grid (Float.of_Z (-999)) = Ok arr /\
    cell arr 0 0 = Some y /\
    in_unit_interval y = false.
Proof.
  split; [vm_compute; reflexivity|].
  split; [reflexivity|].
  exists [[NaN; NaN]; [NaN; NaN]], NaN.
  split; [vm_compute; reflexivity|]. split; reflexivity.
Qed.

(** ** Transparency *)

Lemma alpha_scale_pixel (p : rgba) :
  alpha (scale_pixel p) = astype_uint8 (snd p * 255)%Q.
Proof. destruct p as [[[r g] b] a]. reflexivity. Qed.

(** The colormap gives every number an opaque colour. *)
Lemma jet_alpha (y : float) : Float.isnan y = false -> snd (Jet.call y) = 1%Q.
Proof.
  intros Hy. unfold Jet.call.
  destruct y as [q| | |]; try discriminate; cbn [Float.mul Float.of_Z].
  - unfold Float.round.
    destruct (Qle_bool Float.huge _); [reflexivity|].
    destruct (Qle_bool _ (- Float.huge)); [reflexivity|].
    destruct (Qeq_bool _ _); [reflexivity|].
    destruct (negb _); [reflexivity|].
    destruct (Qle_bool _ _); reflexivity.
  - reflexivity.
  - reflexivity.
Qed.

(** X13.  When the percentiles are numbers with [vmin < vmax] whose
    difference [vmax - vmin] does not overflow, the alpha of a pixel is
    decided by the mask of line 39 alone: 0 on a no-data cell, 255 on a
    valid one. *)
Lemma alpha_follows_mask
      (data : array2 float) (nodata_value : float) (a b : Q) (img : Image)
      (r c : nat) (x : float) :
  percentiles data nodata_value = Ok (Fin a, Fin b) ->
  (a < b)%Q ->
  (b - a < Float.huge)%Q ->
  colorize data nodata_value = Ok img ->
  cell data r c = Some x ->
  exists p,
    cell img r c = Some p /\
    alpha p = if Float.eqb x nodata_value || Float.isnan x then 0 else 255.
Proof.
  intros Hp Hab Hbig Hc Hx.
  destruct (colorize_inv _ _ _ Hc) as (vmin & vmax & Hp' & ->).
  rewrite Hp in Hp'. injection Hp' as <- <-.
  assert (Hm : cell (nodata_mask data nodata_value) r c
               = Some (Float.eqb x nodata_value || Float.isnan x)).
  { unfold nodata_mask. now rewrite cell_map2d, Hx. }
  assert (Hy : cell (rescale data (Fin a) (Fin b)) r c
               = Some (Float.div (Float.sub (Float.clip x (Fin a) (Fin b)) (Fin a))
                                 (Float.sub (Fin b) (Fin a)))).
  { now rewrite cell_rescale, Hx. }
  eexists. split; [exact (cell_render _ _ _ _ _ _ Hm Hy)|].
  destruct (Float.eqb x nodata_value || Float.isnan x) eqn:Hmask; [reflexivity|].
  apply orb_false_iff in Hmask as [_ Hnan].
  destruct (rescale_cell_within a b x Hab Hbig Hnan) as (y & -> & _).
  rewrite alpha_scale_pixel, jet_alpha; reflexivity.
Qed.

(** C10, at the failing input.  On the grid [Sample.flat_grid] cell
    (0, 0) is valid (the mask of line 39 is false there), the
    percentiles are equal, and the pixel comes out with alpha 0: it is
    transparent although it is not no-data. *)
Theorem valid_cell_made_transparent :
  cell Sample.flat_grid 0 0 = Some (Float.of_Z 5) /\
  cell (nodata_mask Sample.flat_grid (Float.of_Z (-999))) 0 0 = Some false /\
  exists img p,
    colorize Sample.flat_grid (Float.of_Z (-999)) = Ok img /\
    cell img 0 0 = Some p /\
    alpha p = 0.
Proof.
  split; [reflexivity|]. split; [reflexivity|].
  exists [[(0, 0, 0, 0); (0, 0, 0, 0)]; [(0, 0, 0, 0); (0, 0, 0, 0)]], (0, 0, 0, 0).
  split; [vm_compute; reflexivity|]. split; reflexivity.
Qed.


(** ** The image on disk *)

(** A run that ends normally has written, as the PNG file, the image
    the colorizer returns for the clipped grid and the no-data value of
    line 38. *)
Lemma png_is_colorized
      (w : world) (s s1 s2 : state) (src : Raster) (data : array2 float)
      (bounds : (Q * Q) * (Q * Q)) (nodata_value : float) :
  load_and_clip w s = (Ok (src, data, bounds), s1) ->
  nodata_value_of src w s1 = (Ok nodata_value, s2) ->
  fst (main w s) = Ok tt ->
  exists img,
    colorize data nodata_value = Ok img /\
    png_file (snd (main w s)) = Some img.
Proof.
  intros Hclip Hnd. rewrite main_split, Hclip.
  unfold colorize_and_publish.
  rewrite (bind_ok _ _ _ _ _ _ Hnd). unfold bind at 1, lift.
  destruct (colorize data nodata_value) as [img|e]; [|discriminate].
  intros Hok. exists img. split; [reflexivity|]. revert Hok.
  unfold save_png, assemble, image_overlay, save_html, print, emit, modify,
    bind, ask, get, ret, raise.
  destruct (png_writable w); [|discriminate].
  cbn [handle_open png_file html_file trace].
  destruct (html_writable w); [|discriminate].
  reflexivity.
Qed.

(** ** The fill value of the clip *)

Lemma cell_tabulate {A : Type} (h w : Z) (f : Z -> Z -> A) (r c : nat) :
  cell (tabulate h w f) r c =
  if (r <? Z.to_nat h)%nat && (c <? Z.to_nat w)%nat
  then Some (f (Z.of_nat r) (Z.of_nat c)) else None.
Proof.
  unfold cell, tabulate.
  rewrite nth_error_map, nth_error_seq.
  destruct (r <? Z.to_nat h)%nat; simpl; [|reflexivity].
  rewrite nth_error_map, nth_error_seq.
  destruct (c <? Z.to_nat w)%nat; reflexivity.
Qed.

(** On a raster that declares no no-data value, [mask] writes 0 into
    every pixel of the window that no shape contains. *)
Lemma mask_fills_with_zero
      (src : Raster) (shapes : list Geometry) (w : world) (s s' : state)
      (out : array2 float) (rest : list (array2 float)) (t : Affine)
      (win : Window) (r c : nat) :
  r_nodata src = None ->
  Rasterio.geometry_window src shapes = Ok win ->
  Rasterio.mask src shapes w s = (Ok (out :: rest, t), s') ->
  (r < Z.to_nat (height win))%nat ->
  (c < Z.to_nat (width win))%nat ->
  existsb (fun g => g_inside g (row_off win + Z.of_nat r)
                             (col_off win + Z.of_nat c)) shapes = false ->
  cell out r c = Some (Fin 0).
Proof.
  intros Hdecl Hwin Hmask Hr Hc Hout.
  destruct (mask_run src shapes w s) as (s0 & _ & Heq).
  rewrite Heq, Hwin in Hmask.
  injection Hmask as <- _ _ _.
  unfold clipped. rewrite cell_tabulate.
  apply Nat.ltb_lt in Hr, Hc. rewrite Hr, Hc. cbn [andb].
  unfold clipped_cell. now rewrite Hdecl, Hout.
Qed.

(** Line 38 on the same raster. *)
Lemma nodata_value_of_undeclared (src : Raster) (w : world) (s : state) :
  r_nodata src = None ->
  fst (nodata_value_of src w s) = Ok (Float.of_Z (-32000)).
Proof.
  intros Hn. unfold nodata_value_of, Rasterio.nodata, bind, emit, modify, ret.
  cbn [handle_open png_file html_file trace].
  now rewrite Hn.
Qed.

(** Such a pixel is not in the mask of line 39. *)
Lemma zero_is_not_masked :
  Float.eqb (Fin 0) (Float.of_Z (-32000)) || Float.isnan (Fin 0) = false.
Proof. reflexivity. Qed.

(** * Further properties of [main] *)

(** ** What the [with] block hands on *)

(** A window that [intersection] returns is not empty and lies within
    both of its arguments. *)
Lemma intersection_inv (w1 w2 win : Window) :
  Rasterio.intersection w1 w2 = Ok win ->
  0 < width win /\ 0 < height win /\
  col_off w1 <= col_off win /\ col_off w2 <= col_off win /\
  row_off w1 <= row_off win /\ row_off w2 <= row_off win /\
  col_off win + width win <= col_off w1 + width w1 /\
  col_off win + width win <= col_off w2 + width w2 /\
  row_off win + height win <= row_off w1 + height w1 /\
  row_off win + height win <= row_off w2 + height w2.
Proof.
  unfold Rasterio.intersection.
  destruct (_ && _) eqn:Hpos; [|discriminate].
  intros H. injection H as <-. cbn [col_off row_off width height].
  apply andb_true_iff in Hpos as [Hw Hh].
  apply Z.ltb_lt in Hw, Hh. lia.
Qed.

Lemma geometry_window_inv (src : Raster) (shapes : list Geometry) (win : Window) :
  Rasterio.geometry_window src shapes = Ok win ->
  0 < width win /\ 0 < height win /\
  0 <= col_off win /\ 0 <= row_off win /\
  col_off win + width win <= r_width src /\
  row_off win + height win <= r_height src.
Proof.
  unfold Rasterio.geometry_window.
  destruct (flat_map _ shapes) as [|c0 cols']; [discriminate|].
  destruct (flat_map _ shapes) as [|r0 rows']; [discriminate|].
  intros H. apply intersection_inv in H.
  cbn [col_off row_off width height] in H. lia.
Qed.

Lemma length_tabulate {A : Type} (h w : Z) (f : Z -> Z -> A) :
  length (tabulate h w f) = Z.to_nat h.
Proof. unfold tabulate. now rewrite length_map, length_seq. Qed.

Lemma hd_tabulate {A : Type} (h w : Z) (f : Z -> Z -> A) :
  0 < h -> length (hd [] (tabulate h w f)) = Z.to_nat w.
Proof.
  intros Hh. unfold tabulate.
  destruct (Z.to_nat h) as [|n] eqn:E; [lia|].
  simpl. now rewrite length_map, length_seq.
Qed.

(** With both files readable, a frame that can be handed to [mask]
    and a window that meets the raster, the [with] block is left
    normally. *)
Lemma load_and_clip_ok
      (w : world) (s : state) (gdf : GeoDataFrame) (src : Raster) (win : Window) :
  vector_file w = Content gdf ->
  raster_file w = Content src ->
  crs_compatible gdf src ->
  Rasterio.geometry_window src (shapes_for w gdf src) = Ok win ->
  exists s1,
    load_and_clip w s =
    (Ok (src, clipped src (shapes_for w gdf src) win,
         overlay_bounds
           (Rasterio.array_bounds
              (Z.of_nat (length (clipped src (shapes_for w gdf src) win)))
              (Z.of_nat (length (hd [] (clipped src (shapes_for w gdf src) win))))
              (Rasterio.window_transform src win))),
     s1).
Proof.
  intros Hv Hr Hcrs Hw.
  destruct (load_and_clip_run w s gdf src Hv Hr Hcrs) as (s1 & _ & Heq).
  exists s1. rewrite Heq. unfold clip_outcome. now rewrite Hw.
Qed.

(** Line 38: the attribute is read, and the handle and the files are
    left alone. *)
Lemma nodata_value_of_run (src : Raster) (w : world) (s : state) :
  exists s2,
    nodata_value_of src w s = (Ok (nodata_value_for src), s2) /\
    handle_open s2 = handle_open s /\
    png_file s2 = png_file s /\
    html_file s2 = html_file s.
Proof.
  unfold nodata_value_of, nodata_value_for, Rasterio.nodata,
    bind, emit, modify, ret.
  cbn [handle_open png_file html_file trace].
  destruct (r_nodata src) as [n|];
    cbn [handle_open png_file html_file trace];
    eexists; (split; [reflexivity|]); auto.
Qed.

(** Lines 48 to 84 in full, by what the two output paths allow. *)
Lemma publish_run (img : Image) (bounds : (Q * Q) * (Q * Q))
      (w : world) (s : state) :
  (save_png img ;;; assemble bounds ;;; print "Saved Idaho overlay map.") w s =
  if png_writable w then
    let s1 := mkState (handle_open s) (Some img) (html_file s)
                      (trace s ++ [Wrote image_path]) in
    if html_writable w then
      (Ok tt,
       mkState (handle_open s) (Some img)
               (Some (mkMap (440682 # 10000, - (114742 # 1000))%Q 6 None
                        [ TileLayer "OpenStreetMap" "OpenStreetMap";
                          TileLayer "Esri.WorldStreetMap" "Esri World Street Map";
                          Geocoder "topleft" 8;
                          ImageOverlay img bounds (1 # 2) "Idaho Climate Overlay";
                          legend; LayerControl ]))
               (((trace s ++ [Wrote image_path]) ++ [Wrote html_path])
                  ++ [Print "Saved Idaho overlay map."]))
    else (Raise (OSError html_path), s1)
  else (Raise (OSError image_path), s).
Proof.
  unfold save_png, assemble, image_overlay, save_html, print, emit, modify,
    bind, ask, get, ret, raise.
  destruct (png_writable w); [|reflexivity].
  cbn [handle_open png_file html_file trace].
  destruct (html_writable w); reflexivity.
Qed.

(** Lines 38 to 84 after a [with] block left normally. *)
Lemma colorize_and_publish_run
      (w : world) (s s1 : state) (src : Raster) (data : array2 float)
      (bounds : (Q * Q) * (Q * Q)) :
  load_and_clip w s = (Ok (src, data, bounds), s1) ->
  exists s2,
    handle_open s2 = false /\
    png_file s2 = png_file s /\
    html_file s2 = html_file s /\
    main w s =
    match colorize data (nodata_value_for src) with
    | Ok img =>
        (save_png img ;;; assemble bounds ;;; print "Saved Idaho overlay map.")
          w s2
    | Raise e => (Raise e, s2)
    end.
Proof.
  intros Hrun.
  destruct (load_and_clip_inv _ _ _ _ _ _ Hrun)
    as (gdf & win & _ & _ & _ & _ & _ & _ & Hclosed).
  destruct (nodata_value_of_run src w s1) as (s2 & Hnd & Hh & Hp & Hm).
  pose proof (quiet_load_and_clip w s) as (P1 & H1 & _).
  rewrite Hrun in P1, H1. simpl in P1, H1.
  exists s2. repeat split; [congruence | congruence | congruence |].
  rewrite main_split, Hrun. unfold colorize_and_publish.
  rewrite (bind_ok _ _ _ _ _ _ Hnd). unfold bind at 1, lift.
  destruct (colorize data (nodata_value_for src)); reflexivity.
Qed.

(** The [with] block when the window cannot be computed. *)
Lemma load_and_clip_window_error
      (w : world) (s : state) (gdf : GeoDataFrame) (src : Raster) (e : exn) :
  vector_file w = Content gdf ->
  raster_file w = Content src ->
  crs_compatible gdf src ->
  Rasterio.geometry_window src (shapes_for w gdf src) = Raise e ->
  fst (load_and_clip w s) =
  Raise (match e with
         | WindowError => ValueError "Input shapes do not overlap raster."
         | _ => e
         end).
Proof.
  intros Hv Hr Hcrs Hw.
  destruct (load_and_clip_run w s gdf src Hv Hr Hcrs) as (s1 & _ & Heq).
  rewrite Heq. unfold clip_outcome. rewrite Hw. now destruct e.
Qed.

Lemma load_and_clip_handle (w : world) (s : state) :
  handle_open s = false -> handle_open (snd (load_and_clip w s)) = false.
Proof.
  intros Hs. unfold load_and_clip.
  destruct (read_file w s) as [[gdf|e] s0] eqn:Hread.
  - assert (s0 = s) as ->.
    { revert Hread. unfold read_file, bind, ask.
      destruct (vector_file w); intros H; now inversion H. }
    rewrite (bind_ok _ _ _ _ _ _ Hread).
    destruct (Rasterio.open tif_path w s) as [[src|e] s1] eqn:Hopen.
    + eapply with_open_releases; eauto.
    + unfold Rasterio.with_open. rewrite Hopen. simpl.
      revert Hopen. unfold Rasterio.open, bind, ask.
      destruct (raster_file w); intros H; inversion H; now subst.
  - rewrite (bind_raise _ _ _ _ _ _ Hread). simpl.
    revert Hread. unfold read_file, bind, ask.
    destruct (vector_file w); intros H; inversion H; now subst.
Qed.

(** ** The raster handle *)

(** X1.  A run never leaves the raster handle open: started with no
    handle open, [main] ends with none open, whether it returned or
    raised, and wherever it raised. *)
Theorem main_leaves_handle_closed (w : world) (s : state) :
  handle_open s = false ->
  handle_open (snd (main w s)) = false.
Proof.
  intros Hs.
  pose proof (load_and_clip_handle w s Hs) as Hl.
  destruct (load_and_clip w s) as [[[[src data] bounds]|e] s1] eqn:Hrun.
  - destruct (colorize_and_publish_run _ _ _ _ _ _ Hrun)
      as (s2 & Hh & _ & _ & ->).
    destruct (colorize data (nodata_value_for src)) as [img|e]; [|exact Hh].
    rewrite publish_run.
    destruct (png_writable w); [|exact Hh].
    destruct (html_writable w); exact Hh.
  - rewrite main_split, Hrun. exact Hl.
Qed.

(** The run of [Sample.far_away], which raises inside the [with]
    block. *)
Lemma main_leaves_handle_closed_witness :
  fst (main Sample.far_away Sample.fresh)
    = Raise (ValueError "Input shapes do not overlap raster.") /\
  handle_open (snd (main Sample.far_away Sample.fresh)) = false.
Proof.
  split; [vm_compute; reflexivity|].
  exact (main_leaves_handle_closed Sample.far_away Sample.fresh eq_refl).
Defined.



(** ** Failures and what they leave behind *)

(** X4.  A boundary file that loads with no geometry in it, in a
    frame that can be brought into the raster's CRS (the two are equal,
    or both are set), makes the run die at line 29, inside [mask], with
    the [ValueError] that the window computation raises on an empty
    list of shapes, whatever the raster; nothing is written. *)
Theorem empty_boundary_fails_in_mask
        (w : world) (s : state) (gdf : GeoDataFrame) (src : Raster) :
  vector_file w = Content gdf ->
  gdf_geometry gdf = [] ->
  raster_file w = Content src ->
  crs_compatible gdf src ->
  (exists msg,
     Rasterio.geometry_window src (shapes_for w gdf src)
       = Raise (ValueError msg) /\
     fst (main w s) = Raise (ValueError msg)) /\
  png_file (snd (main w s)) = png_file s /\
  html_file (snd (main w s)) = html_file s.
Proof.
  intros Hv Hg Hr Hcrs.
  assert (Hshapes : shapes_for w gdf src = []).
  { unfold shapes_for. rewrite Hg. now destruct (crs_eqb _ _). }
  assert (Hwin : Rasterio.geometry_window src (shapes_for w gdf src)
                 = Raise (ValueError "min() arg is an empty sequence")).
  { now rewrite Hshapes. }
  pose proof (load_and_clip_window_error w s gdf src _ Hv Hr Hcrs Hwin) as Hfail.
  pose proof (quiet_load_and_clip w s) as (Hp & Hh & _).
  rewrite main_split.
  destruct (load_and_clip w s) as [[[[src' data] bounds]|e] s1]; simpl in *;
    [discriminate|].
  injection Hfail as ->. eauto.
Qed.

Lemma empty_boundary_fails_in_mask_witness :
  (exists msg,
     Rasterio.geometry_window Sample.nine [] = Raise (ValueError msg) /\
     fst (main Sample.no_geometries Sample.fresh) = Raise (ValueError msg)) /\
  png_file (snd (main Sample.no_geometries Sample.fresh)) = None /\
  html_file (snd (main Sample.no_geometries Sample.fresh)) = None.
Proof.
  exact (empty_boundary_fails_in_mask
           Sample.no_geometries Sample.fresh
           (mkGeoDataFrame Sample.nad83 []) Sample.nine
           eq_refl eq_refl eq_refl (or_introl eq_refl)).
Defined.

(** X5.  A run that raises anything but the error of one of its two
    writes (line 48 or line 83) has failed before line 48 and has
    written nothing: both output files are what they were, and the
    trace gains no write. *)
Theorem failed_run_leaves_outputs (w : world) (s : state) (e : exn) :
  fst (main w s) = Raise e ->
  e <> OSError image_path ->
  e <> OSError html_path ->
  png_file (snd (main w s)) = png_file s /\
  html_file (snd (main w s)) = html_file s /\
  (forall p, In (Wrote p) (trace (snd (main w s))) -> In (Wrote p) (trace s)).
Proof.
  intros Hfail Hpng Hhtml.
  pose proof (quiet_load_and_clip w s) as Hq.
  rewrite main_split in *.
  destruct (load_and_clip w s) as [[[[src data] bounds]|e0] s1] eqn:Hrun;
    [|exact Hq].
  cbn [fst snd] in Hq. destruct Hq as (Qp & Qh & Qt).
  pose proof (quiet_nodata_value_of src w s1) as Hq2.
  revert Hfail. unfold colorize_and_publish.
  destruct (nodata_value_of src w s1) as [[v|e1] s2] eqn:Hnd.
  - rewrite (bind_ok _ _ _ _ _ _ Hnd), bind_lift.
    cbn [fst snd] in Hq2. destruct Hq2 as (Rp & Rh & Rt).
    destruct (colorize data v) as [img|e2].
    + rewrite publish_run.
      destruct (png_writable w); [|intros H; injection H as <-; congruence].
      destruct (html_writable w); [discriminate|].
      intros H; injection H as <-; congruence.
    + intros _. cbn [fst snd]. repeat split; try congruence. auto.
  - rewrite (bind_raise _ _ _ _ _ _ Hnd). intros _.
    cbn [fst snd] in *. destruct Hq2 as (Rp & Rh & Rt).
    repeat split; try congruence. auto.
Qed.

Lemma failed_run_leaves_outputs_witness :
  fst (main Sample.blank Sample.fresh) = Raise IndexError /\
  png_file (snd (main Sample.blank Sample.fresh)) = None /\
  html_file (snd (main Sample.blank Sample.fresh)) = None.
Proof.
  assert (H : fst (main Sample.blank Sample.fresh) = Raise IndexError)
    by (vm_compute; reflexivity).
  destruct (failed_run_leaves_outputs _ _ _ H) as (Hp & Hh & _);
    [discriminate | discriminate |].
  split; [exact H|]. split; [exact Hp | exact Hh].
Defined.

(** X6.  When [index.html] cannot be opened for writing while the
    image path can, a run that gets as far as line 48 leaves a
    half-done result: the run ends with the error of the HTML write,
    and the new PNG is on disk all the same. *)
Theorem html_failure_leaves_png
        (w : world) (s s1 : state) (src : Raster) (data : array2 float)
        (bounds : (Q * Q) * (Q * Q)) (img : Image) :
  load_and_clip w s = (Ok (src, data, bounds), s1) ->
  colorize data (nodata_value_for src) = Ok img ->
  png_writable w = true ->
  html_writable w = false ->
  fst (main w s) = Raise (OSError html_path) /\
  png_file (snd (main w s)) = Some img /\
  In (Wrote image_path) (trace (snd (main w s))).
Proof.
  intros Hrun Hc Hpng Hhtml.
  destruct (colorize_and_publish_run _ _ _ _ _ _ Hrun)
    as (s2 & _ & _ & Hh & ->).
  rewrite Hc, publish_run, Hpng, Hhtml. cbn [fst snd png_file trace].
  repeat split. apply in_or_app. right. now left.
Qed.

Lemma html_failure_leaves_png_witness :
  exists img,
    colorize (map (map Float.of_Z) [[-25; -15; -15]; [-15; 0; 0]; [10; 10; 12]])
             (Float.of_Z (-999)) = Ok img /\
    fst (main Sample.scenario_html_readonly Sample.fresh)
      = Raise (OSError html_path) /\
    png_file (snd (main Sample.scenario_html_readonly Sample.fresh))
      = Some img /\
    In (Wrote image_path)
       (trace (snd (main Sample.scenario_html_readonly Sample.fresh))).
Proof.
  eexists. split; [vm_compute; reflexivity|].
  destruct (load_and_clip Sample.scenario_html_readonly Sample.fresh)
    as [[[[src data] bounds]|e] s1] eqn:Hrun.
  - refine (html_failure_leaves_png _ _ _ _ _ _ _ Hrun _ eq_refl eq_refl).
    vm_compute in Hrun. injection Hrun as <- <- _ _.
    vm_compute. reflexivity.
  - vm_compute in Hrun. discriminate.
Defined.

(** X7.  A run that ends normally has written both files, and they
    agree: the PNG is the image the colorizer returns for the clipped
    grid, and the overlay of the HTML map embeds that very image, at
    the bounds computed inside the [with] block and at opacity 0.5. *)
Theorem successful_run_outputs
        (w : world) (s s1 : state) (src : Raster) (data : array2 float)
        (bounds : (Q * Q) * (Q * Q)) :
  load_and_clip w s = (Ok (src, data, bounds), s1) ->
  fst (main w s) = Ok tt ->
  exists img m,
    colorize data (nodata_value_for src) = Ok img /\
    png_file (snd (main w s)) = Some img /\
    html_file (snd (main w s)) = Some m /\
    overlay_of m = Some (img, bounds, 1 # 2).
Proof.
  intros Hrun.
  destruct (colorize_and_publish_run _ _ _ _ _ _ Hrun)
    as (s2 & _ & _ & _ & ->).
  destruct (colorize data (nodata_value_for src)) as [img|e]; [|discriminate].
  rewrite publish_run.
  destruct (png_writable w); [|discriminate].
  destruct (html_writable w); [|discriminate].
  intros _. eexists img, _. repeat split.
Qed.

Lemma successful_run_outputs_witness :
  exists img m,
    png_file (snd (main Sample.overhanging Sample.fresh)) = Some img /\
    html_file (snd (main Sample.overhanging Sample.fresh)) = Some m /\
    overlay_of m = Some (img, ((1880, 1030), (1940, 1090))%Q, 1 # 2).
Proof.
  destruct (load_and_clip Sample.overhanging Sample.fresh)
    as [[[[src data] bounds]|e] s1] eqn:Hrun.
  - destruct (successful_run_outputs _ _ _ _ _ _ Hrun)
      as (img & m & _ & Hp & Hh & Ho); [vm_compute; reflexivity|].
    exists img, m. repeat split; [exact Hp | exact Hh |].
    rewrite Ho. vm_compute in Hrun. injection Hrun as _ _ <- _. reflexivity.
  - vm_compute in Hrun. discriminate.
Defined.

(** ** The colorizer, further *)

Lemma row_lengths_map2d {A B : Type} (f : A -> B) (a : array2 A) :
  map (@length B) (map2d f a) = map (@length A) a.
Proof.
  unfold map2d. rewrite map_map. apply map_ext. intros row. apply length_map.
Qed.

Lemma row_lengths_zip2d {A B : Type} (a : array2 A) (b : array2 B) :
  map (@length A) a = map (@length B) b ->
  map (@length (A * B)) (zip2d a b) = map (@length A) a.
Proof.
  unfold zip2d. revert b.
  induction a as [|ra a IH]; intros [|rb b]; simpl; try discriminate; auto.
  intros H. injection H as Hr Ht.
  rewrite length_combine, <- Hr, Nat.min_id. f_equal. now apply IH.
Qed.

(** X8.  The image has the shape of the clipped grid: as many rows,
    and row by row as many pixels as the grid has cells. *)
Theorem image_has_grid_shape
        (data : array2 float) (nodata_value : float) (img : Image) :
  colorize data nodata_value = Ok img ->
  map (@length pixel) img = map (@length float) data.
Proof.
  intros Hc.
  destruct (colorize_inv _ _ _ Hc) as (vmin & vmax & _ & ->).
  unfold render, rescale, nodata_mask.
  rewrite !row_lengths_map2d, row_lengths_zip2d; rewrite !row_lengths_map2d;
    reflexivity.
Qed.

Lemma image_has_grid_shape_witness :
  exists img,
    colorize Sample.mixed_grid (Float.of_Z (-999)) = Ok img /\
    map (@length pixel) img = [2%nat; 2%nat].
Proof.
  eexists. split; [vm_compute; reflexivity|].
  apply (image_has_grid_shape Sample.mixed_grid (Float.of_Z (-999))).
  vm_compute. reflexivity.
Defined.

Lemma cell_In_concat {A : Type} (a : array2 A) (r c : nat) (x : A) :
  cell a r c = Some x -> In x (concat a).
Proof.
  unfold cell. destruct (nth_error a r) as [row|] eqn:Hr; [|discriminate].
  intros Hc. apply in_concat. exists row.
  split; eapply nth_error_In; eauto.
Qed.

Lemma percentile2_nonempty (a : list float) (q1 q2 : Q) :
  a <> [] -> exists v1 v2, Np.percentile2 a q1 q2 = Ok (v1, v2).
Proof.
  intros Ha. unfold Np.percentile2, Np.percentile1.
  assert (Hn : (Z.of_nat (length a) =? 0) = false).
  { apply Z.eqb_neq. destruct a; [congruence | simpl; lia]. }
  rewrite Hn. destruct (existsb Float.isnan a); eauto.
Qed.

Lemma valid_cell_of_colorize_ok
      (data : array2 float) (nodata_value : float) (img : Image) :
  colorize data nodata_value = Ok img ->
  exists r c v, cell data r c = Some v /\
                Float.eqb v nodata_value || Float.isnan v = false.
Proof.
  intros Hc.
  destruct (colorize_inv _ _ _ Hc) as (vmin & vmax & Hp & _).
  unfold percentiles, select_unmasked in Hp.
  destruct (filter _ _) as [|[v m] l] eqn:Hf; [discriminate|].
  assert (Hin : In (v, m) (filter (fun vm : float * bool => negb (snd vm))
                  (concat (zip2d data (nodata_mask data nodata_value)))))
    by (rewrite Hf; now left).
  apply filter_In in Hin as [Hin Hm]. simpl in Hm.
  apply In_zip2d_map2d in Hin as (-> & r & c & Hcell).
  exists r, c, v. split; [exact Hcell|]. now apply negb_true_iff.
Qed.

Lemma colorize_ok_of_valid_cell
      (data : array2 float) (nodata_value : float) (r c : nat) (v : float) :
  cell data r c = Some v ->
  Float.eqb v nodata_value || Float.isnan v = false ->
  exists img, colorize data nodata_value = Ok img.
Proof.
  intros Hcell Hvalid.
  assert (Hin : In (v, false)
                   (concat (zip2d data (nodata_mask data nodata_value)))).
  { apply (cell_In_concat _ r c). unfold nodata_mask.
    rewrite cell_zip2d, cell_map2d, Hcell. simpl. now rewrite Hvalid. }
  assert (Hne : select_unmasked data (nodata_mask data nodata_value) <> []).
  { unfold select_unmasked. intros Hnil.
    apply map_eq_nil in Hnil.
    assert (Hf : In (v, false)
                    (filter (fun vm : float * bool => negb (snd vm))
                       (concat (zip2d data (nodata_mask data nodata_value)))))
      by (apply filter_In; auto).
    now rewrite Hnil in Hf. }
  destruct (percentile2_nonempty _ 2 98 Hne) as (vmin & vmax & Hp).
  unfold colorize, normalized, percentiles. rewrite Hp. eauto.
Qed.

(** X9.  The colorizer returns an image exactly when the grid has a
    valid cell, one that is neither the no-data value nor
    not-a-number; it raises on no other grid. *)
Theorem colorize_succeeds_iff (data : array2 float) (nodata_value : float) :
  (exists img, colorize data nodata_value = Ok img) <->
  (exists r c v, cell data r c = Some v /\
                 Float.eqb v nodata_value || Float.isnan v = false).
Proof.
  split.
  - intros [img Hc]. eapply valid_cell_of_colorize_ok; eauto.
  - intros (r & c & v & Hcell & Hvalid).
    eapply colorize_ok_of_valid_cell; eauto.
Qed.

(** What [np.clip] between numbers [a < b] makes of a number. *)
Lemma clip_cases (a b : Q) (x : float) :
  (a < b)%Q ->
  Float.isnan x = false ->
  (Float.leb x (Fin a) = true /\ Float.clip x (Fin a) (Fin b) = Fin a) \/
  (Float.leb (Fin b) x = true /\
   exists c, Float.clip x (Fin a) (Fin b) = Fin c /\ (c == b)%Q) \/
  (exists q, x = Fin q /\ (a < q)%Q /\ (q < b)%Q /\
             Float.clip x (Fin a) (Fin b) = Fin q).
Proof.
  intros Hab Hx. unfold Float.clip, Float.maximum, Float.minimum.
  assert (Hle : Qle_bool a b = true) by (apply Qle_bool_iff, Qlt_le_weak, Hab).
  destruct x as [q| | |]; cbn [Float.leb]; try discriminate.
  - destruct (Qle_bool q a) eqn:Hqa; cbn [Float.leb].
    + left. now rewrite Hle.
    + assert (Haq : (a < q)%Q).
      { apply Qnot_le_lt. intros H. apply Qle_bool_iff in H. congruence. }
      right. destruct (Qle_bool q b) eqn:Hqb.
      * apply Qle_bool_iff in Hqb.
        destruct (Qle_bool b q) eqn:Hbq.
        -- left. split; [reflexivity|]. exists q. split; [reflexivity|].
           apply Qle_bool_iff in Hbq. now apply Qle_antisym.
        -- right. exists q. repeat split; auto.
           apply Qnot_le_lt. intros H. apply Qle_bool_iff in H. congruence.
      * left. assert (Hbq : Qle_bool b q = true).
        { apply Qle_bool_iff, Qlt_le_weak, Qnot_le_lt. intros H.
          apply Qle_bool_iff in H. congruence. }
        rewrite Hbq. split; [reflexivity|]. exists b. split; reflexivity.
  - right. left. split; [reflexivity|]. exists b. split; reflexivity.
  - left. now rewrite Hle.
Qed.

(** The quotient of lines 41 and 42 for a clamped value [c], when
    [vmax - vmin] does not overflow. *)
Lemma rescale_quotient (a b c : Q) :
  (a < b)%Q ->
  (b - a < Float.huge)%Q ->
  (a <= c)%Q ->
  (c <= b)%Q ->
  Float.div (Float.sub (Fin c) (Fin a)) (Float.sub (Fin b) (Fin a))
  = Fin (Qred ((c - a) / (b - a))).
Proof.
  intros Hab Hbig Hac Hcb.
  rewrite !sub_fin.
  pose proof huge_pos as Hh.
  assert (Hone : (1 < Float.huge)%Q) by reflexivity.
  pose proof (Qred_correct (- a)) as Ha.
  set (a' := Qred (- a)) in *. clearbody a'.
  rewrite (round_small (c + a')), (round_small (b + a')) by lra.
  set (n := Qred (c + a')).
  set (d := Qred (b + a')).
  assert (Hn : (n == c - a)%Q) by (unfold n; rewrite Qred_correct; lra).
  assert (Hd : (d == b - a)%Q) by (unfold d; rewrite Qred_correct; lra).
  clearbody n d.
  assert (Hd0 : (0 < d)%Q) by lra.
  assert (Hz : Qeq_bool d 0 = false).
  { destruct (Qeq_bool d 0) eqn:E; [|reflexivity].
    apply Qeq_bool_iff in E. lra. }
  assert (Hq0 : (0 <= n / d)%Q).
  { apply Qle_shift_div_l; [exact Hd0 | lra]. }
  assert (Hq1 : (n / d <= 1)%Q).
  { apply Qle_shift_div_r; [exact Hd0 | lra]. }
  unfold Float.div. rewrite Hz.
  assert (Hq : (n / d == (c - a) / (b - a))%Q) by (now rewrite Hn, Hd).
  set (q := (n / d)%Q) in *. clearbody q.
  rewrite round_small by lra.
  f_equal. now apply Qred_complete.
Qed.

Lemma leb_trans (x y z : float) :
  Float.leb x y = true -> Float.leb y z = true -> Float.leb x z = true.
Proof.
  destruct x as [p| | |], y as [q| | |], z as [r| | |]; cbn [Float.leb];
    try discriminate; try reflexivity.
  rewrite !Qle_bool_iff. apply Qle_trans.
Qed.

Lemma leb_fin (p q : Q) : Float.leb (Fin p) (Fin q) = true <-> (p <= q)%Q.
Proof. cbn [Float.leb]. apply Qle_bool_iff. Qed.

(** [np.clip] keeps the order of numbers. *)
Lemma clip_monotone (a b : Q) (x y : float) :
  (a < b)%Q ->
  Float.isnan x = false ->
  Float.isnan y = false ->
  Float.leb x y = true ->
  exists cx cy,
    Float.clip x (Fin a) (Fin b) = Fin cx /\
    Float.clip y (Fin a) (Fin b) = Fin cy /\
    (cx <= cy)%Q.
Proof.
  intros Hab Hx Hy Hxy.
  destruct (clip_within a b x Hab Hx) as (cx & Ecx & Hacx & Hcxb).
  destruct (clip_within a b y Hab Hy) as (cy & Ecy & Hacy & Hcyb).
  exists cx, cy. split; [exact Ecx|]. split; [exact Ecy|].
  destruct (clip_cases a b x Hab Hx)
    as [[Hlow Ex] | [[Hhigh (c & Ex & Hc)] | (q & -> & Haq & Hqb & Ex)]];
    rewrite Ex in Ecx; injection Ecx as <-.
  - exact Hacy.
  - destruct (clip_cases a b y Hab Hy)
      as [[Hlow' Ey] | [[Hhigh' (c' & Ey & Hc')] | (q' & -> & Haq' & Hqb' & Ey)]];
      rewrite Ey in Ecy; injection Ecy as <-.
    + pose proof (leb_trans _ _ _ (leb_trans _ _ _ Hhigh Hxy) Hlow') as H.
      apply leb_fin in H. exfalso. now apply (Qlt_not_le _ _ Hab).
    + rewrite Hc, Hc'. apply Qle_refl.
    + pose proof (leb_trans _ _ _ Hhigh Hxy) as H. apply leb_fin in H.
      exfalso. now apply (Qlt_not_le _ _ Hqb').
  - destruct (clip_cases a b y Hab Hy)
      as [[Hlow' Ey] | [[Hhigh' (c' & Ey & Hc')] | (q' & -> & Haq' & Hqb' & Ey)]];
      rewrite Ey in Ecy; injection Ecy as <-.
    + pose proof (leb_trans _ _ _ Hxy Hlow') as H. apply leb_fin in H.
      exfalso. now apply (Qlt_not_le _ _ Haq).
    + rewrite Hc'. now apply Qlt_le_weak.
    + now apply leb_fin.
Qed.

(** X10.  Lines 41 and 42 keep the order of the cells: when the
    percentiles are numbers with [vmin < vmax] whose difference
    [vmax - vmin] does not overflow, a cell that holds no more than
    another holds no more than it after rescaling either. *)
Theorem rescale_preserves_order
        (data : array2 float) (nodata_value : float) (a b : Q)
        (r c r' c' : nat) (x y : float) :
  percentiles data nodata_value = Ok (Fin a, Fin b) ->
  (a < b)%Q ->
  (b - a < Float.huge)%Q ->
  cell data r c = Some x ->
  cell data r' c' = Some y ->
  Float.isnan x = false ->
  Float.isnan y = false ->
  Float.leb x y = true ->
  exists arr u v,
    normalized data nodata_value = Ok arr /\
    cell arr r c = Some u /\
    cell arr r' c' = Some v /\
    Float.leb u v = true.
Proof.
  intros Hp Hab Hbig Hx Hy Hnx Hny Hxy.
  destruct (clip_monotone a b x y Hab Hnx Hny Hxy) as (cx & cy & Ex & Ey & Hle).
  destruct (clip_within a b x Hab Hnx) as (cx' & Ex' & Hax & Hxb).
  rewrite Ex in Ex'. injection Ex' as <-.
  destruct (clip_within a b y Hab Hny) as (cy' & Ey' & Hay & Hyb).
  rewrite Ey in Ey'. injection Ey' as <-.
  exists (rescale data (Fin a) (Fin b)).
  exists (Fin (Qred ((cx - a) / (b - a)))), (Fin (Qred ((cy - a) / (b - a)))).
  unfold normalized. rewrite Hp. split; [reflexivity|].
  rewrite !cell_rescale, Hx, Hy. cbn [option_map].
  rewrite Ex, Ey, !rescale_quotient by assumption.
  split; [reflexivity|]. split; [reflexivity|].
  apply leb_fin. rewrite !Qred_correct. unfold Qdiv.
  apply Qmult_le_compat_r.
  - unfold Qminus. apply Qplus_le_compat; [exact Hle | apply Qle_refl].
  - apply Qinv_le_0_compat, Qlt_le_weak.
    unfold Qminus. now apply Qlt_minus_iff in Hab.
Qed.

(** In the nine values of the specification's scenario, -15 at
    (0, 1) against 10 at (2, 0). *)
Lemma rescale_preserves_order_witness :
  exists arr u v,
    normalized (map (map Float.of_Z) [[-25; -15; -15]; [-15; 0; 0]; [10; 10; 12]])
               (Float.of_Z (-999)) = Ok arr /\
    cell arr 0 1 = Some u /\ cell arr 2 0 = Some v /\ Float.leb u v = true.
Proof.
  apply (rescale_preserves_order
           (map (map Float.of_Z) [[-25; -15; -15]; [-15; 0; 0]; [10; 10; 12]])
           (Float.of_Z (-999)) (- (117 # 5)) (292 # 25) 0 1 2 0
           (Float.of_Z (-15)) (Float.of_Z 10));
    vm_compute; reflexivity.
Defined.

Lemma clip_low (a b : Q) (x : float) :
  (a < b)%Q ->
  Float.leb x (Fin a) = true ->
  Float.clip x (Fin a) (Fin b) = Fin a.
Proof.
  intros Hab Hx. unfold Float.clip, Float.maximum, Float.minimum.
  assert (Hle : Qle_bool a b = true) by (apply Qle_bool_iff, Qlt_le_weak, Hab).
  destruct x as [q| | |]; cbn [Float.leb] in *; try discriminate.
  - rewrite Hx. cbn [Float.leb]. now rewrite Hle.
  - now rewrite Hle.
Qed.

Lemma clip_high (a b : Q) (x : float) :
  (a < b)%Q ->
  Float.leb (Fin b) x = true ->
  exists c, Float.clip x (Fin a) (Fin b) = Fin c /\ (c == b)%Q.
Proof.
  intros Hab Hx.
  assert (Hnan : Float.isnan x = false) by (destruct x; try reflexivity; discriminate).
  destruct (clip_cases a b x Hab Hnan)
    as [[Hlow Ex] | [[Hhigh Hc] | (q & -> & Haq & Hqb & Ex)]].
  - pose proof (leb_trans _ _ _ Hx Hlow) as H. apply leb_fin in H.
    exfalso. now apply (Qlt_not_le _ _ Hab).
  - exact Hc.
  - apply leb_fin in Hx. exfalso. now apply (Qlt_not_le _ _ Hqb).
Qed.

(** X11.  Percentile clipping saturates the outliers: when the
    percentiles are numbers with [vmin < vmax] whose difference
    [vmax - vmin] does not overflow, a valid cell at or below [vmin]
    gets the low end of the gradient, the dark blue
    [(0, 0, 127, 255)], and a valid cell at or above [vmax] gets its
    high end, the dark red [(127, 0, 0, 255)]. *)
Theorem outliers_saturate
        (data : array2 float) (nodata_value : float) (a b : Q) (img : Image)
        (r c : nat) (x : float) :
  percentiles data nodata_value = Ok (Fin a, Fin b) ->
  (a < b)%Q ->
  (b - a < Float.huge)%Q ->
  colorize data nodata_value = Ok img ->
  cell data r c = Some x ->
  Float.eqb x nodata_value || Float.isnan x = false ->
  (Float.leb x (Fin a) = true -> cell img r c = Some (0, 0, 127, 255)) /\
  (Float.leb (Fin b) x = true -> cell img r c = Some (127, 0, 0, 255)).
Proof.
  intros Hp Hab Hbig Hc Hx Hvalid.
  destruct (colorize_inv _ _ _ Hc) as (vmin & vmax & Hp' & ->).
  rewrite Hp in Hp'. injection Hp' as <- <-.
  assert (Hm : cell (nodata_mask data nodata_value) r c = Some false).
  { unfold nodata_mask. now rewrite cell_map2d, Hx, <- Hvalid. }
  assert (Hy : cell (rescale data (Fin a) (Fin b)) r c
               = Some (Float.div (Float.sub (Float.clip x (Fin a) (Fin b)) (Fin a))
                                 (Float.sub (Fin b) (Fin a)))).
  { now rewrite cell_rescale, Hx. }
  rewrite (cell_render _ _ _ _ _ _ Hm Hy).
  assert (Hba : ~ (b - a == 0)%Q).
  { intros E. apply Qlt_minus_iff in Hab. unfold Qminus in E.
    rewrite E in Hab. now apply Qlt_irrefl in Hab. }
  split; intros Hx'.
  - rewrite (clip_low a b x Hab Hx'), rescale_quotient
      by (assumption || apply Qle_refl || now apply Qlt_le_weak).
    replace (Qred ((a - a) / (b - a))) with (Qred 0); [reflexivity|].
    apply Qred_complete. unfold Qdiv. ring.
  - destruct (clip_high a b x Hab Hx') as (cx & -> & Hcx).
    rewrite rescale_quotient
      by (assumption || (rewrite Hcx; apply Qle_refl)
          || (rewrite Hcx; now apply Qlt_le_weak)).
    replace (Qred ((cx - a) / (b - a))) with (Qred 1); [reflexivity|].
    apply Qred_complete. rewrite Hcx. symmetry. now apply Qmult_inv_r.
Qed.

(** The least and the greatest of the nine values of the
    specification's scenario. *)
Lemma outliers_saturate_witness :
  exists img,
    colorize (map (map Float.of_Z) [[-25; -15; -15]; [-15; 0; 0]; [10; 10; 12]])
             (Float.of_Z (-999)) = Ok img /\
    cell img 0 0 = Some (0, 0, 127, 255) /\
    cell img 2 2 = Some (127, 0, 0, 255).
Proof.
  eexists. split; [vm_compute; reflexivity|]. split.
  - refine (proj1 (outliers_saturate
               (map (map Float.of_Z) [[-25; -15; -15]; [-15; 0; 0]; [10; 10; 12]])
               (Float.of_Z (-999)) (- (117 # 5)) (292 # 25) _ 0 0 (Float.of_Z (-25))
               _ _ _ _ _ _) _); vm_compute; reflexivity.
  - refine (proj2 (outliers_saturate
               (map (map Float.of_Z) [[-25; -15; -15]; [-15; 0; 0]; [10; 10; 12]])
               (Float.of_Z (-999)) (- (117 # 5)) (292 # 25) _ 2 2 (Float.of_Z 12)
               _ _ _ _ _ _) _); vm_compute; reflexivity.
Defined.

(** Cell (1, 0) of [Sample.mixed_grid], which holds 7 between the
    percentiles 5.04 and 6.96. *)
Lemma valid_cell_in_unit_interval_witness :
  exists arr y,
    normalized Sample.mixed_grid (Float.of_Z (-999)) = Ok arr /\
    cell arr 1 0 = Some y /\ in_unit_interval y = true.
Proof.
  apply (valid_cell_in_unit_interval
           Sample.mixed_grid (Float.of_Z (-999)) (126 # 25) (174 # 25) 1 0
           (Float.of_Z 7));
    vm_compute; reflexivity.
Defined.

(** The four cells of [Sample.mixed_grid]: no-data, valid, valid,
    not-a-number. *)
Lemma alpha_follows_mask_witness :
  exists img,
    colorize Sample.mixed_grid (Float.of_Z (-999)) = Ok img /\
    (exists p, cell img 0 0 = Some p /\ alpha p = 0) /\
    (exists p, cell img 0 1 = Some p /\ alpha p = 255) /\
    (exists p, cell img 1 0 = Some p /\ alpha p = 255) /\
    (exists p, cell img 1 1 = Some p /\ alpha p = 0).
Proof.
  eexists. split; [vm_compute; reflexivity|].
  repeat split.
  - apply (alpha_follows_mask Sample.mixed_grid (Float.of_Z (-999))
             (126 # 25) (174 # 25) _ 0 0 (Float.of_Z (-999)));
      vm_compute; reflexivity.
  - apply (alpha_follows_mask Sample.mixed_grid (Float.of_Z (-999))
             (126 # 25) (174 # 25) _ 0 1 (Float.of_Z 5));
      vm_compute; reflexivity.
  - apply (alpha_follows_mask Sample.mixed_grid (Float.of_Z (-999))
             (126 # 25) (174 # 25) _ 1 0 (Float.of_Z 7));
      vm_compute; reflexivity.
  - apply (alpha_follows_mask Sample.mixed_grid (Float.of_Z (-999))
             (126 # 25) (174 # 25) _ 1 1 NaN);
      vm_compute; reflexivity.
Defined.

(** ** The clipped grid *)

Lemma cell_clipped (src : Raster) (shapes : list Geometry) (win : Window)
      (r c : nat) :
  cell (clipped src shapes win) r c =
  if (r <? Z.to_nat (height win))%nat && (c <? Z.to_nat (width win))%nat
  then Some (clipped_cell src shapes win (Z.of_nat r) (Z.of_nat c))
  else None.
Proof. apply cell_tabulate. Qed.

Lemma In_tabulate {A : Type} (h w : Z) (f : Z -> Z -> A) (row : list A) :
  In row (tabulate h w f) -> length row = Z.to_nat w.
Proof.
  unfold tabulate. intros H. apply in_map_iff in H as (i & <- & _).
  now rewrite length_map, length_seq.
Qed.

(** X14.  The grid that leaves the [with] block is never empty and
    never larger than the raster: it has at least one row and at most
    as many as the raster, and all its rows have one same length,
    at least one and at most the width of the raster. *)
Theorem clipped_grid_shape
        (w : world) (s s1 : state) (src : Raster) (data : array2 float)
        (bounds : (Q * Q) * (Q * Q)) :
  load_and_clip w s = (Ok (src, data, bounds), s1) ->
  (0 < length data <= Z.to_nat (r_height src))%nat /\
  exists wd,
    (0 < wd <= Z.to_nat (r_width src))%nat /\
    forall row, In row data -> length row = wd.
Proof.
  intros Hrun.
  destruct (load_and_clip_inv _ _ _ _ _ _ Hrun)
    as (gdf & win & _ & _ & _ & Hwin & -> & _).
  apply geometry_window_inv in Hwin.
  unfold clipped. rewrite length_tabulate. split; [lia|].
  exists (Z.to_nat (width win)). split; [lia|].
  intros row. apply In_tabulate.
Qed.

(** The boundary of [Sample.overhanging] reaches two rows below the
    raster; the grid has two rows of two cells. *)
Lemma clipped_grid_shape_witness :
  clipped_grid Sample.overhanging Sample.fresh
    = Some [[Float.of_Z 10; Float.of_Z (-999)]; [Float.of_Z 14; Float.of_Z 15]] /\
  exists data,
    clipped_grid Sample.overhanging Sample.fresh = Some data /\
    (0 < length data <= 4)%nat.
Proof.
  split; [vm_compute; reflexivity|].
  unfold clipped_grid.
  destruct (load_and_clip Sample.overhanging Sample.fresh)
    as [[[[src data] bounds]|e] s1] eqn:Hrun.
  - exists data. split; [reflexivity|].
    pose proof (proj1 (clipped_grid_shape _ _ _ _ _ _ Hrun)) as H.
    vm_compute in Hrun. injection Hrun as <- _ _ _. exact H.
  - vm_compute in Hrun. discriminate.
Defined.

(** X15.  Clipping resamples nothing: every cell of the grid that
    leaves the [with] block is either the fill value (the declared
    no-data value, or 0 when the raster declares none) or the very
    sample of a raster pixel that one of the shapes handed to [mask]
    contains. *)
Theorem clipped_cells_are_samples
        (w : world) (s s1 : state) (gdf : GeoDataFrame) (src : Raster)
        (data : array2 float) (bounds : (Q * Q) * (Q * Q))
        (r c : nat) (v : float) :
  vector_file w = Content gdf ->
  load_and_clip w s = (Ok (src, data, bounds), s1) ->
  cell data r c = Some v ->
  v = match r_nodata src with Some n => n | None => Fin 0 end \/
  exists row col g,
    0 <= row < r_height src /\ 0 <= col < r_width src /\
    In g (shapes_for w gdf src) /\ g_inside g row col = true /\
    v = r_band1 src row col.
Proof.
  intros Hv Hrun Hcell.
  destruct (load_and_clip_inv _ _ _ _ _ _ Hrun)
    as (gdf' & win & Hv' & _ & _ & Hwin & -> & _).
  rewrite Hv in Hv'. injection Hv' as <-.
  apply geometry_window_inv in Hwin.
  rewrite cell_clipped in Hcell.
  destruct ((r <? _)%nat && (c <? _)%nat) eqn:Hrange; [|discriminate].
  apply andb_true_iff in Hrange as [Hr Hc]. apply Nat.ltb_lt in Hr, Hc.
  injection Hcell as <-. unfold clipped_cell.
  destruct (_ || negb _) eqn:Hfill; [now left|].
  right. apply orb_false_iff in Hfill as [_ Hin].
  apply negb_false_iff, existsb_exists in Hin as (g & Hg & Hinside).
  exists (row_off win + Z.of_nat r), (col_off win + Z.of_nat c), g.
  repeat split; auto; lia.
Qed.

(** Cell (0, 0) of the grid of [Sample.overhanging] is the sample 10
    of pixel (2, 1). *)
Lemma clipped_cells_are_samples_witness :
  exists data,
    clipped_grid Sample.overhanging Sample.fresh = Some data /\
    cell data 0 0 = Some (Float.of_Z 10) /\
    r_band1 Sample.georeferenced 2 1 = Float.of_Z 10.
Proof.
  unfold clipped_grid.
  destruct (load_and_clip Sample.overhanging Sample.fresh)
    as [[[[src data] bounds]|e] s1] eqn:Hrun.
  - exists data. split; [reflexivity|].
    assert (Hcell : cell data 0 0 = Some (Float.of_Z 10)).
    { vm_compute in Hrun. injection Hrun as _ <- _ _. reflexivity. }
    split; [exact Hcell|].
    destruct (clipped_cells_are_samples
                Sample.overhanging Sample.fresh s1 _ src data bounds 0 0
                (Float.of_Z 10) eq_refl Hrun Hcell) as [H | H].
    + vm_compute in Hrun. injection Hrun as <- _ _ _. discriminate H.
    + reflexivity.
  - vm_compute in Hrun. discriminate.
Defined.

Lemma nodata_value_is_masked (n : float) :
  Float.eqb n n || Float.isnan n = true.
Proof. destruct n as [q| | |]; try reflexivity. simpl. now rewrite Qeq_bool_refl. Qed.

(** X16.  With a declared no-data value the boundary cuts out what
    is meant: in a run that ends normally, every pixel of the window
    that no shape contains is the pixel [(0, 0, 0, 0)] of the PNG. *)
Theorem outside_pixels_are_transparent
        (w : world) (s : state) (gdf : GeoDataFrame) (src : Raster)
        (win : Window) (n : float) (r c : nat) :
  vector_file w = Content gdf ->
  raster_file w = Content src ->
  r_nodata src = Some n ->
  Rasterio.geometry_window src (shapes_for w gdf src) = Ok win ->
  fst (main w s) = Ok tt ->
  (r < Z.to_nat (height win))%nat ->
  (c < Z.to_nat (width win))%nat ->
  existsb (fun g => g_inside g (row_off win + Z.of_nat r)
                             (col_off win + Z.of_nat c))
          (shapes_for w gdf src) = false ->
  exists img,
    png_file (snd (main w s)) = Some img /\
    cell img r c = Some (0, 0, 0, 0).
Proof.
  intros Hv Hr Hn Hwin Hok Hrow Hcol Hout.
  assert (Hrun : exists s1,
             load_and_clip w s =
             (Ok (src, clipped src (shapes_for w gdf src) win,
                  overlay_bounds
                    (Rasterio.array_bounds
                       (Z.of_nat (length (clipped src (shapes_for w gdf src) win)))
                       (Z.of_nat (length (hd [] (clipped src (shapes_for w gdf src)
                                                         win))))
                       (Rasterio.window_transform src win))), s1)).
  { destruct (load_and_clip w s) as [[[[src' data] bounds]|e] s1] eqn:Hrun.
    - destruct (load_and_clip_inv _ _ _ _ _ _ Hrun)
        as (gdf' & win' & Hv' & Hr' & _ & Hwin' & -> & -> & _).
      rewrite Hv in Hv'. injection Hv' as <-.
      rewrite Hr in Hr'. injection Hr' as <-.
      rewrite Hwin in Hwin'. injection Hwin' as <-.
      eauto.
    - rewrite main_split, Hrun in Hok. discriminate. }
  destruct Hrun as (s1 & Hrun).
  destruct (colorize_and_publish_run _ _ _ _ _ _ Hrun) as (s2 & _ & _ & _ & Hmain).
  rewrite Hmain in *. clear Hmain.
  destruct (colorize _ _) as [img|e] eqn:Hc; [|discriminate].
  rewrite publish_run in *.
  destruct (png_writable w); [|discriminate].
  destruct (html_writable w); [|discriminate].
  exists img. split; [reflexivity|].
  destruct (colorize_inv _ _ _ Hc) as (vmin & vmax & _ & ->).
  assert (Hcell : cell (clipped src (shapes_for w gdf src) win) r c = Some n).
  { rewrite cell_clipped.
    apply Nat.ltb_lt in Hrow, Hcol. rewrite Hrow, Hcol. cbn [andb].
    unfold clipped_cell. rewrite Hout, Hn. cbn [negb].
    now rewrite orb_true_r. }
  assert (Hm : cell (nodata_mask (clipped src (shapes_for w gdf src) win)
                                 (nodata_value_for src)) r c = Some true).
  { unfold nodata_mask, nodata_value_for.
    rewrite cell_map2d, Hcell, Hn. cbn [option_map].
    now rewrite nodata_value_is_masked. }
  assert (Hx : exists x, cell (rescale (clipped src (shapes_for w gdf src) win)
                                       vmin vmax) r c = Some x).
  { rewrite cell_rescale, Hcell. cbn [option_map]. eauto. }
  destruct Hx as [x Hx].
  now rewrite (cell_render _ _ _ _ _ _ Hm Hx).
Qed.

(** Pixel (0, 1) of the window of [Sample.overhanging] is the pixel
    cut out of the boundary. *)
Lemma outside_pixels_are_transparent_witness :
  exists img,
    png_file (snd (main Sample.overhanging Sample.fresh)) = Some img /\
    cell img 0 1 = Some (0, 0, 0, 0).
Proof.
  apply (outside_pixels_are_transparent
           Sample.overhanging Sample.fresh
           (mkGeoDataFrame Sample.nad83 [Sample.box_without 1 2 3 6 2 2])
           Sample.georeferenced (mkWindow 1 2 2 2) (Float.of_Z (-999)) 0 1);
    vm_compute; try reflexivity; lia.
Defined.

(** X17.  For a north-up raster (not rotated, columns running east
    and rows running south), the bounds handed to the overlay are the
    geographic rectangle of the crop window under the raster's own
    transform, south and west corner first, north and east corner
    second: the first corner lies strictly south and west of the
    second. *)
Theorem overlay_bounds_of_window
        (w : world) (s s1 : state) (gdf : GeoDataFrame) (src : Raster)
        (data : array2 float) (bounds : (Q * Q) * (Q * Q)) (win : Window) :
  vector_file w = Content gdf ->
  Rasterio.geometry_window src (shapes_for w gdf src) = Ok win ->
  load_and_clip w s = (Ok (src, data, bounds), s1) ->
  (af_b (r_transform src) == 0)%Q ->
  (af_d (r_transform src) == 0)%Q ->
  (0 < af_a (r_transform src))%Q ->
  (af_e (r_transform src) < 0)%Q ->
  let t := r_transform src in
  bounds_eq bounds
    ((af_f t + af_e t * inject_Z (row_off win + height win),
      af_c t + af_a t * inject_Z (col_off win)),
     (af_f t + af_e t * inject_Z (row_off win),
      af_c t + af_a t * inject_Z (col_off win + width win)))%Q /\
  (fst (fst bounds) < fst (snd bounds))%Q /\
  (snd (fst bounds) < snd (snd bounds))%Q.
Proof.
  intros Hv Hwin Hrun Hb Hd Ha He t. subst t.
  destruct (load_and_clip_inv _ _ _ _ _ _ Hrun)
    as (gdf' & win' & Hv' & _ & _ & Hwin' & -> & -> & _).
  rewrite Hv in Hv'. injection Hv' as <-.
  rewrite Hwin in Hwin'. injection Hwin' as <-.
  pose proof (geometry_window_inv _ _ _ Hwin) as (Hw0 & Hh0 & _).
  unfold clipped. rewrite length_tabulate, hd_tabulate by exact Hh0.
  rewrite !Z2Nat.id by lia.
  unfold Rasterio.array_bounds, Rasterio.window_transform.
  cbn [af_a af_b af_c af_d af_e af_f].
  rewrite (Qeq_eq_bool _ _ Hb), (Qeq_eq_bool _ _ Hd). cbn [andb overlay_bounds].
  unfold bounds_eq. cbn [fst snd].
  rewrite !Qred_correct, !inject_Z_plus.
  assert (Hw : (0 < inject_Z (width win))%Q)
    by (change 0%Q with (inject_Z 0); rewrite <- Zlt_Qlt; lia).
  assert (Hh : (0 < inject_Z (height win))%Q)
    by (change 0%Q with (inject_Z 0); rewrite <- Zlt_Qlt; lia).
  generalize dependent (inject_Z (width win)).
  generalize dependent (inject_Z (height win)).
  generalize (inject_Z (row_off win)) (inject_Z (col_off win)).
  destruct (r_transform src) as [ta tb tc td te tf].
  cbn [af_a af_b af_c af_d af_e af_f] in *.
  intros y x h Hh wd Hwd.
  rewrite Hb, Hd. repeat split; try ring; nra.
Qed.

(** The raster of [Sample.overhanging] has pixels of 30 by 30 from
    the corner (1000, 2000); the window is columns 1 and 2 of rows 2
    and 3. *)
Lemma overlay_bounds_of_window_witness :
  exists bounds,
    clipped_bounds Sample.overhanging Sample.fresh = Some bounds /\
    bounds_eq bounds ((1880, 1030), (1940, 1090))%Q.
Proof.
  unfold clipped_bounds.
  destruct (load_and_clip Sample.overhanging Sample.fresh)
    as [[[[src data] bounds]|e] s1] eqn:Hrun.
  - exists bounds. split; [reflexivity|].
    assert (Hsrc : src = Sample.georeferenced)
      by (vm_compute in Hrun; now injection Hrun as <- _ _ _).
    subst src.
    pose proof (overlay_bounds_of_window
                  Sample.overhanging Sample.fresh s1
                  (mkGeoDataFrame Sample.nad83 [Sample.box_without 1 2 3 6 2 2])
                  Sample.georeferenced data bounds (mkWindow 1 2 2 2)
                  eq_refl eq_refl Hrun (Qeq_refl 0) (Qeq_refl 0)
                  eq_refl eq_refl) as H.
    destruct H as ((H1 & H2 & H3 & H4) & _).
    repeat split; [rewrite H1 | rewrite H2 | rewrite H3 | rewrite H4]; reflexivity.
  - vm_compute in Hrun. discriminate.
Defined.

(** X18.  A run is sure to end normally when both files load, the
    boundary frame can be brought into the raster's CRS (the two are
    equal, or both are set), the window of the boundary meets the
    raster, the clipped grid has a valid cell and both output paths can
    be written. *)
Theorem run_succeeds
        (w : world) (s : state) (gdf : GeoDataFrame) (src : Raster)
        (win : Window) (r c : nat) (v : float) :
  vector_file w = Content gdf ->
  raster_file w = Content src ->
  crs_compatible gdf src ->
  Rasterio.geometry_window src (shapes_for w gdf src) = Ok win ->
  cell (clipped src (shapes_for w gdf src) win) r c = Some v ->
  Float.eqb v (nodata_value_for src) || Float.isnan v = false ->
  png_writable w = true ->
  html_writable w = true ->
  fst (main w s) = Ok tt.
Proof.
  intros Hv Hr Hcrs Hwin Hcell Hvalid Hpng Hhtml.
  destruct (load_and_clip_ok w s gdf src win Hv Hr Hcrs Hwin) as (s1 & Hrun).
  destruct (colorize_and_publish_run _ _ _ _ _ _ Hrun) as (s2 & _ & _ & _ & ->).
  destruct (colorize_ok_of_valid_cell _ _ _ _ _ Hcell Hvalid) as [img ->].
  now rewrite publish_run, Hpng, Hhtml.
Qed.

Lemma run_succeeds_witness :
  fst (main Sample.overhanging Sample.fresh) = Ok tt.
Proof.
  apply (run_succeeds
           Sample.overhanging Sample.fresh
           (mkGeoDataFrame Sample.nad83 [Sample.box_without 1 2 3 6 2 2])
           Sample.georeferenced (mkWindow 1 2 2 2) 0 0 (Float.of_Z 10));
    try (left; reflexivity); vm_compute; reflexivity.
Defined.

(** ** The percentiles *)





















(** ** Running again *)

(** X20.  What a run that ends normally writes is decided by its
    inputs alone: started from any other state, with whatever an
    earlier run left at the two output paths, the run ends normally
    too, writes the same PNG, and lays the same image over the same
    bounds in its map. *)
Theorem outputs_depend_on_inputs_only (w : world) (s s' : state) :
  fst (main w s) = Ok tt ->
  fst (main w s') = Ok tt /\
  png_file (snd (main w s')) = png_file (snd (main w s)) /\
  exists m m',
    html_file (snd (main w s)) = Some m /\
    html_file (snd (main w s')) = Some m' /\
    overlay_of m' = overlay_of m.
Proof.
  intros Hok.
  destruct (load_and_clip w s) as [[[[src data] bounds]|e] s1] eqn:Hrun.
  2: { rewrite main_split, Hrun in Hok. discriminate. }
  destruct (load_and_clip_inv _ _ _ _ _ _ Hrun)
    as (gdf & win & Hv & Hr & Hcrs & Hwin & Hdata & Hbounds & _).
  destruct (load_and_clip_ok w s' gdf src win Hv Hr Hcrs Hwin) as (s1' & Hrun').
  rewrite <- Hdata, <- Hbounds in Hrun'.
  destruct (colorize_and_publish_run _ _ _ _ _ _ Hrun) as (s2 & _ & _ & _ & Hm).
  destruct (colorize_and_publish_run _ _ _ _ _ _ Hrun') as (s2' & _ & _ & _ & Hm').
  rewrite Hm in *. rewrite Hm'. clear Hm Hm'.
  destruct (colorize data (nodata_value_for src)) as [img|e]; [|discriminate].
  rewrite publish_run in *. rewrite publish_run.
  destruct (png_writable w); [|discriminate].
  destruct (html_writable w); [|discriminate].
  cbn [fst snd png_file html_file].
  split; [reflexivity|]. split; [reflexivity|].
  eexists _, _. repeat split.
Qed.

(** The specification's scenario run over the files that the run of
    [Sample.overhanging] would have left. *)
Lemma outputs_depend_on_inputs_only_witness :
  let stale := initial (png_file (snd (main Sample.overhanging Sample.fresh)))
                       (html_file (snd (main Sample.overhanging Sample.fresh))) in
  fst (main Sample.scenario stale) = Ok tt /\
  png_file (snd (main Sample.scenario stale))
    = png_file (snd (main Sample.scenario Sample.fresh)).
Proof.
  intros stale.
  destruct (outputs_depend_on_inputs_only Sample.scenario Sample.fresh stale)
    as (Hok & Hpng & _); [vm_compute; reflexivity|].
  split; assumption.
Defined.
